(** * Layout reconstruction and section classification of [src/index.js]

    A shallow embedding of the resume printer: the utilities of lines 25-78
    and the per-page body of [extractFormattedText] (lines 86-223).

    Modelling choices, fixed once for the whole development:
    - a JS string is a [string] of 8-bit code units (Latin-1 range); the
      built-ins used by the source ([trim], [toLowerCase], [startsWith],
      [includes], [join], [length], the three regular expressions) are
      written out below on such strings;
    - a JS number that holds a coordinate is an integer [Z], read as the
      binary64 number of that value; comparisons are exact, and the sums,
      differences and products of the formatter are rounded to binary64
      ([JsNumber]), as lines 64 and 70 compute them;
    - [chalk] is an external styling layer: it is an interface ([Chalk]) of
      string transformers, with two instances to evaluate concrete runs;
    - [console.log] appends its argument to a log (a list of strings, one
      per call; [console.log()] appends the empty string);
    - the array [lines] is a store updated by index, because
      [Array.prototype.sort] sorts the array it is called on. *)

From Stdlib Require Import ZArith Lia Ascii Permutation.
From stdpp Require Import base list strings sorting.

Local Open Scope Z_scope.

(** ** JS strings *)

Module JsString.

Definition code (c : ascii) : N := N_of_ascii c.

(** [WhiteSpace] and [LineTerminator] code units below 256: TAB, LF, VT,
    FF, CR, SP and NBSP. This is what [trim] strips and what [\s]
    matches. *)
Definition isWhiteSpace (c : ascii) : bool :=
  let n := code c in
  ((9 <=? n) && (n <=? 13) || (n =? 32) || (n =? 160))%N.

Definition isUpperAZ (c : ascii) : bool :=
  let n := code c in ((65 <=? n) && (n <=? 90))%N.

Definition isLowerAZ (c : ascii) : bool :=
  let n := code c in ((97 <=? n) && (n <=? 122))%N.

Definition isDigit (c : ascii) : bool :=
  let n := code c in ((48 <=? n) && (n <=? 57))%N.

(** Latin-1 letters with a Latin-1 lower case: A-Z and U+00C0..U+00DE
    without the multiplication sign U+00D7. *)
Definition lowerChar (c : ascii) : ascii :=
  let n := code c in
  if ((65 <=? n) && (n <=? 90) ||
      (192 <=? n) && (n <=? 222) && negb (n =? 215))%N
  then ascii_of_N (n + 32) else c.

(** Upper case of one code unit. U+00DF (sharp s) becomes "SS"; U+00B5
    and U+00FF have their upper case outside Latin-1 and are left as they
    are, so [toUpperCase] is exact on every other code unit. *)
Definition upperChar (c : ascii) : string :=
  let n := code c in
  if ((97 <=? n) && (n <=? 122) ||
      (224 <=? n) && (n <=? 254) && negb (n =? 247))%N
  then String (ascii_of_N (n - 32)) EmptyString
  else if (n =? 223)%N then "SS"
  else String c EmptyString.

Fixpoint toLowerCase (s : string) : string :=
  match s with
  | EmptyString => EmptyString
  | String c r => String (lowerChar c) (toLowerCase r)
  end.

Fixpoint toUpperCase (s : string) : string :=
  match s with
  | EmptyString => EmptyString
  | String c r => upperChar c +:+ toUpperCase r
  end.

Definition isEmpty (s : string) : bool :=
  match s with EmptyString => true | String _ _ => false end.

(** [s.length] as a number. *)
Definition len (s : string) : Z := Z.of_nat (String.length s).

Fixpoint startsWith (s p : string) {struct p} : bool :=
  match p, s with
  | EmptyString, _ => true
  | String _ _, EmptyString => false
  | String a p', String b s' => if Ascii.eqb a b then startsWith s' p' else false
  end.

Fixpoint includes (s p : string) : bool :=
  startsWith s p ||
  match s with
  | EmptyString => false
  | String _ r => includes r p
  end.

Fixpoint trimStart (s : string) : string :=
  match s with
  | EmptyString => EmptyString
  | String c r => if isWhiteSpace c then trimStart r else s
  end.

Fixpoint trimEnd (s : string) : string :=
  match s with
  | EmptyString => EmptyString
  | String c r =>
      let r' := trimEnd r in
      if isWhiteSpace c && isEmpty r' then EmptyString else String c r'
  end.

Definition trim (s : string) : string := trimEnd (trimStart s).

(** [parts.join(sep)] *)
Fixpoint join (sep : string) (parts : list string) : string :=
  match parts with
  | [] => EmptyString
  | [p] => p
  | p :: rest => p +:+ sep +:+ join sep rest
  end.

Fixpoint allChars (P : ascii -> bool) (s : string) : bool :=
  match s with
  | EmptyString => true
  | String c r => P c && allChars P r
  end.

(** [/^[...]+$/.test(s)] for a character class [P]: without the [m] flag
    the anchors are the two ends of the input. *)
Definition matchesClassPlus (P : ascii -> bool) (s : string) : bool :=
  negb (isEmpty s) && allChars P s.

(** [s.replace(key, repl)] with a string pattern: the first occurrence
    only. The replacements built by the source hold no [$], so no
    replacement pattern is expanded. *)
Fixpoint dropn (n : nat) (s : string) : string :=
  match n, s with
  | O, _ => s
  | S _, EmptyString => EmptyString
  | S k, String _ r => dropn k r
  end.

Fixpoint replaceFirst (s key repl : string) : string :=
  if startsWith s key then repl +:+ dropn (String.length key) s
  else match s with
       | EmptyString => EmptyString
       | String c r => String c (replaceFirst r key repl)
       end.

End JsString.

Import JsString.

(** ** JS numbers *)

Module JsNumber.

(** The binary64 number nearest to an integer, ties to the even
    significand: an integer below 2^53 in absolute value is a binary64
    number; a larger one keeps the 53 leading bits of its absolute value.
    (Integers from 2^1024 on, which the language turns into an infinity,
    are not met: a finite coordinate plus a width is finite, and an
    infinite difference compares with 5 and 10 as the rounded one does.) *)
Definition round64 (z : Z) : Z :=
  let a := Z.abs z in
  if a <? 2 ^ 53 then z
  else
    let e := Z.log2 a - 52 in
    let q := a / 2 ^ e in
    let r := a mod 2 ^ e in
    let half := 2 ^ (e - 1) in
    let q' := if (half <? r) || ((r =? half) && Z.odd q) then q + 1 else q in
    Z.sgn z * (q' * 2 ^ e).

(** [a + b], [a - b] and [a * b] on numbers. *)
Definition add (a b : Z) : Z := round64 (a + b).
Definition sub (a b : Z) : Z := round64 (a - b).
Definition mul (a b : Z) : Z := round64 (a * b).

End JsNumber.

(** ** The styling layer

    [chalk] turns a text into a styled text. The source uses eight styles;
    what they produce depends on the terminal, so they are the methods of
    an interface. *)

Class Chalk := {
  bold : string -> string;                    (* chalk.bold *)
  white : string -> string;                   (* chalk.white *)
  gray : string -> string;                    (* chalk.gray *)
  gray_italic : string -> string;             (* chalk.gray.italic *)
  magenta_bold : string -> string;            (* chalk.magenta.bold *)
  blue_underline : string -> string;          (* chalk.blue.underline *)
  yellow_bold_underline : string -> string;   (* chalk.yellow.bold.underline *)
  cyan_bold_underline : string -> string;     (* chalk.cyan.bold.underline *)
}.

(** Colour level 0 (no colour support): every style is the identity. *)
Definition plainChalk : Chalk :=
  {| bold := id; white := id; gray := id; gray_italic := id;
     magenta_bold := id; blue_underline := id;
     yellow_bold_underline := id; cyan_bold_underline := id |}.

Definition ESC : string := String (ascii_of_N 27) EmptyString.
Definition BEL : string := String (ascii_of_N 7) EmptyString.
Definition LF : string := String (ascii_of_N 10) EmptyString.
Definition TAB : string := String (ascii_of_N 9) EmptyString.

(** One SGR pair around a text; the empty text stays empty. *)
Definition sgr (opening closing : string) (s : string) : string :=
  if isEmpty s then s
  else ESC +:+ "[" +:+ opening +:+ "m" +:+ s +:+ ESC +:+ "[" +:+ closing +:+ "m".

(** Colour level 1 on a text without escape codes and line feeds: the
    styles of a chain open left to right and close right to left. *)
Definition ansiChalk : Chalk :=
  {| bold := sgr "1" "22";
     white := sgr "37" "39";
     gray := sgr "90" "39";
     gray_italic := fun s => sgr "90" "39" (sgr "3" "23" s);
     magenta_bold := fun s => sgr "35" "39" (sgr "1" "22" s);
     blue_underline := fun s => sgr "34" "39" (sgr "4" "24" s);
     yellow_bold_underline := fun s => sgr "33" "39" (sgr "1" "22" (sgr "4" "24" s));
     cyan_bold_underline := fun s => sgr "36" "39" (sgr "1" "22" (sgr "4" "24" s)) |}.

(** ** Utilities (lines 25-78) *)

(** [/Bold|Medium|Semibold|Heavy/i.test(fontName)]: an unanchored search;
    without the [u] flag, [i] folds the case of ASCII letters only. *)
Definition foldAZ (c : ascii) : ascii := if isUpperAZ c then lowerChar c else c.

Fixpoint foldCase (s : string) : string :=
  match s with
  | EmptyString => EmptyString
  | String c r => String (foldAZ c) (foldCase r)
  end.

Definition isBold (fontName : string) : bool :=
  let f := foldCase fontName in
  includes f "bold" || includes f "medium" || includes f "semibold" || includes f "heavy".

Definition keywords : list string :=
  ["education"; "experience"; "projects"; "skills"; "certifications"].

Definition isSectionHeader (text : string) : bool :=
  existsb (fun word => startsWith (toLowerCase text) word) keywords.

(** [[A-Z0-9\s\-():]] *)
Definition titleChar (c : ascii) : bool :=
  isUpperAZ c || isDigit c || isWhiteSpace c ||
  (code c =? 45)%N || (code c =? 40)%N || (code c =? 41)%N || (code c =? 58)%N.

Definition isProjectTitle (text : string) : bool :=
  matchesClassPlus titleChar text && (5 <? len text).

Definition isGithubLink (text : string) : bool := includes text "github.com".

Definition skillCategories : list string :=
  ["Programming Languages:"; "Frameworks/Libraries:"; "Tools:";
   "Cloud/DevOps:"; "Technological Concepts:"; "Soft Skills:"].

Section Styled.
Context {chalk : Chalk}.

Fixpoint highlightSkillKeyIn (keys : list string) (line : string) : string :=
  match keys with
  | [] => line
  | key :: rest =>
      if includes line key
      then replaceFirst line key
             (magenta_bold (replaceFirst key ":" "") +:+ white ":")
      else highlightSkillKeyIn rest line
  end.

Definition highlightSkillKey (line : string) : string :=
  highlightSkillKeyIn skillCategories line.

Definition makeHyperlink (text url : string) : string :=
  ESC +:+ "]8;;" +:+ url +:+ BEL +:+ text +:+ ESC +:+ "]8;;" +:+ BEL.

End Styled.

(** ** Data model (lines 91-93 and 99-123) *)

(** A fragment of [content.items]; [transform4] and [transform5] are
    entries 4 and 5 of its transform, [fontName] may be missing. *)
Module TextItem.
Record t := mk {
  str : string;
  transform4 : Z;
  transform5 : Z;
  fontName : option string;
}.
End TextItem.

(** [rect] is [[x1, y1, x2, y2]]. *)
Definition Rect : Type := Z * Z * Z * Z.

(** An entry of [page.getAnnotations()]: both fields may be missing. *)
Module Annotation.
Record t := mk { url : option string; rect : option Rect }.
End Annotation.

(** An entry of [links]: an annotation that passed the filter. *)
Module Link.
Record t := mk { url : string; rect : Rect }.
End Link.

(** The object pushed on [currentLine] (lines 117-123). *)
Module Token.
Record t := mk {
  str : string;
  raw : string;
  x : Z;
  y : Z;
  fontName : string;
}.
End Token.

Definition Line : Type := list Token.t.

Module Page.
Record t := mk { items : list TextItem.t; annotations : list Annotation.t }.
End Page.

(** ** Link overlay (lines 91-93 and 112-118) *)

(** [ann.url && ann.rect]: a string is truthy when it is not empty, an
    array always. *)
Definition usableLink (ann : Annotation.t) : option Link.t :=
  match Annotation.url ann, Annotation.rect ann with
  | Some u, Some r => if isEmpty u then None else Some (Link.mk u r)
  | _, _ => None
  end.

Definition pageLinks (annotations : list Annotation.t) : list Link.t :=
  omap usableLink annotations.

(** The predicate given to [links.find]. *)
Definition containsPoint (px py : Z) (link : Link.t) : bool :=
  let '(x1, y1, x2, y2) := Link.rect link in
  (x1 <=? px) && (px <=? x2) && (y1 <=? py) && (py <=? y2).

Definition findLink (links : list Link.t) (px py : Z) : option Link.t :=
  List.find (containsPoint px py) links.

(** ** Line grouper (lines 95-128) *)

(** The three variables of the grouping loop. *)
Module Grouper.
Record state := mk {
  lines : list Line;
  currentLine : Line;
  lastY : option Z;
}.
End Grouper.

Section Grouping.
Context {chalk : Chalk}.

(** The token built for a fragment whose trimmed text is [str]. *)
Definition makeToken (links : list Link.t) (item : TextItem.t) : Token.t :=
  let str := trim (TextItem.str item) in
  let py := TextItem.transform5 item in
  let px := TextItem.transform4 item in
  let fontName := default EmptyString (TextItem.fontName item) in
  let link := findLink links px py in
  Token.mk
    (match link with
     | Some l => makeHyperlink (blue_underline str) (Link.url l)
     | None => str
     end)
    str px py fontName.

Definition groupInit : Grouper.state := Grouper.mk [] [] None.

(** [if (currentLine.length > 0) lines.push(currentLine)] *)
Definition pushLine (lines : list Line) (currentLine : Line) : list Line :=
  match currentLine with
  | [] => lines
  | _ :: _ => lines ++ [currentLine]
  end.

(** [lastY === null || Math.abs(y - lastY) > 5] *)
Definition startsNewLine (lastY : option Z) (py : Z) : bool :=
  match lastY with
  | None => true
  | Some ly => 5 <? Z.abs (py - ly)
  end.

(** One iteration of the loop over [content.items]. *)
Definition groupStep (links : list Link.t) (g : Grouper.state) (item : TextItem.t)
  : Grouper.state :=
  if isEmpty (trim (TextItem.str item)) then g
  else
    let py := TextItem.transform5 item in
    let g1 :=
      if startsNewLine (Grouper.lastY g) py
      then Grouper.mk (pushLine (Grouper.lines g) (Grouper.currentLine g)) []
             (Grouper.lastY g)
      else g in
    Grouper.mk (Grouper.lines g1)
      (Grouper.currentLine g1 ++ [makeToken links item]) (Some py).

Definition groupLines (links : list Link.t) (items : list TextItem.t) : list Line :=
  let g := fold_left (groupStep links) items groupInit in
  pushLine (Grouper.lines g) (Grouper.currentLine g).

End Grouping.

(** ** Line formatter (lines 58-74) *)

(** [lineItems.sort((a, b) => a.x - b.x)]: the sort of the language is
    stable, and with this comparator its result is the one stable
    ascending arrangement; it is computed here by insertion from the
    right. *)
Fixpoint insertByX (a : Token.t) (l : Line) : Line :=
  match l with
  | [] => [a]
  | b :: r =>
      if Token.x b <? Token.x a then b :: insertByX a r else a :: b :: r
  end.

Fixpoint sortByX (l : Line) : Line :=
  match l with
  | [] => []
  | a :: r => insertByX a (sortByX r)
  end.

Section Formatting.
Context {chalk : Chalk}.

(** One iteration of the loop over [sorted]; the pair is
    [(output, lastX)]. *)
Definition formatStep (acc : string * Z) (item : Token.t) : string * Z :=
  let '(output, lastX) := acc in
  let gap := JsNumber.sub (Token.x item) lastX in
  let output1 :=
    if 10 <? gap then output +:+ TAB
    else if 5 <? gap then output +:+ " "
    else output in
  let text :=
    if isBold (Token.fontName item) then bold (Token.str item)
    else Token.str item in
  (output1 +:+ text,
   JsNumber.add (Token.x item) (JsNumber.mul (len (Token.str item)) 5)).

(** The result is the returned string together with the contents of the
    array [lineItems] after the call: [sort] works in place and [sorted]
    is the same array. *)
Definition formatLineWithSpacing (lineItems : Line) : string * Line :=
  let sorted := sortByX lineItems in
  let '(output, _) := fold_left formatStep sorted (EmptyString, 0) in
  (trim output, sorted).

End Formatting.

(** ** Section classifier (lines 130-222) *)

(** The five variables declared on lines 130-134. *)
Module Classifier.
Record state := mk {
  inProjects : bool;
  inExperience : bool;
  inEducation : bool;
  lastProjectIndex : Z;
  eduBuffer : list string;
}.
End Classifier.

(** The branch of the loop body that handled a line; it is recorded next
    to the log and has no influence on the run. *)
Inductive Role :=
| Skipped          (* line 141 *)
| SectionHeader    (* lines 144-152 *)
| EducationLine    (* lines 155-167 *)
| ExperienceTitle  (* lines 171-178 *)
| ExperienceLine   (* lines 179-180 *)
| ProjectTitle     (* lines 184-189 *)
| GithubLink       (* lines 192-195 *)
| TechStack        (* lines 198-201 *)
| SkillLine        (* lines 204-207 *)
| VerifyLink       (* lines 210-213 *)
| DefaultLine.     (* lines 216-221 *)

Global Instance Role_eq_dec : EqDecision Role.
Proof. solve_decision. Defined.

(** The state of the loop over the lines of one page. *)
Module Run.
Record state := mk {
  lines : list Line;
  vars : Classifier.state;
  log : list string;
  roles : list Role;
}.
End Run.

(** The console log, and for every page visited so far the classifier
    variables when its line loop started and when it ended. *)
Module Doc.
Record state := mk {
  log : list string;
  starts : list Classifier.state;
  ends : list Classifier.state;
}.
End Doc.

Definition initVars : Classifier.state :=
  Classifier.mk false false false (-2) [].

(** [lineItems.map((i) => i.raw).join(" ").trim()] *)
Definition rawLineOf (lineItems : Line) : string :=
  trim (join " " (map Token.raw lineItems)).

(** [[A-Za-z,\s]] *)
Definition techChar (c : ascii) : bool :=
  isUpperAZ c || isLowerAZ c || (code c =? 44)%N || isWhiteSpace c.

Section Classifying.
Context {chalk : Chalk}.

(** The header branch (lines 145-151). *)
Definition enterSection (c : Classifier.state) (rawLine : string)
  : Classifier.state :=
  let lower := toLowerCase rawLine in
  Classifier.mk (includes lower "project") (includes lower "experience")
    (includes lower "education") (Classifier.lastProjectIndex c) [].

Definition withBuffer (c : Classifier.state) (buf : list string)
  : Classifier.state :=
  Classifier.mk (Classifier.inProjects c) (Classifier.inExperience c)
    (Classifier.inEducation c) (Classifier.lastProjectIndex c) buf.

Definition withLastProjectIndex (c : Classifier.state) (i : Z)
  : Classifier.state :=
  Classifier.mk (Classifier.inProjects c) (Classifier.inExperience c)
    (Classifier.inEducation c) i (Classifier.eduBuffer c).

(** The text printed for a full education buffer (lines 159-162). *)
Definition educationEntry (title subtitle : string) : string :=
  bold (trim title) +:+ LF +:+ gray (TAB +:+ trim subtitle) +:+ LF.

(** [lineItems[0]?.fontName || ""] *)
Definition firstFontName (lineItems : Line) : string :=
  match lineItems with
  | [] => EmptyString
  | item :: _ => Token.fontName item
  end.

(** The look-ahead of lines 218-221, read from the array [lines]. *)
Definition separatorBeforeTitle (lines : list Line) (i : nat) : list string :=
  match lines !! S i with
  | Some next => if isProjectTitle (rawLineOf next) then [EmptyString] else []
  | None => []
  end.

(** The loop body from line 141 on: [lines] and [lineItems] are the array
    and its entry [i] as they are after [formatLineWithSpacing] returned.
    The result is the new variables, what is printed, and the branch. *)
Definition classifyLine (lines : list Line) (i : nat) (c : Classifier.state)
    (lineItems : Line) (rawLine formattedLine : string)
  : Classifier.state * list string * Role :=
  if isEmpty rawLine then (c, [], Skipped)
  else if isSectionHeader rawLine then
    (enterSection c rawLine,
     [LF +:+ yellow_bold_underline (toUpperCase rawLine)], SectionHeader)
  else if Classifier.inEducation c then
    match Classifier.eduBuffer c ++ [formattedLine] with
    | [title; subtitle] =>
        (withBuffer c [], [educationEntry title subtitle], EducationLine)
    | buf => (withBuffer c buf, [], EducationLine)
    end
  else if Classifier.inExperience c then
    if isBold (firstFontName lineItems) && (length lineItems =? 1)%nat
       && (len rawLine <? 40)
    then (c, [LF +:+ cyan_bold_underline rawLine], ExperienceTitle)
    else (c, [formattedLine], ExperienceLine)
  else if Classifier.inProjects c && isProjectTitle rawLine
          && (1 <? Z.of_nat i - Classifier.lastProjectIndex c)
  then (withLastProjectIndex c (Z.of_nat i),
        [EmptyString; cyan_bold_underline formattedLine], ProjectTitle)
  else if Classifier.inProjects c && isGithubLink rawLine
  then (c, [formattedLine], GithubLink)
  else if Classifier.inProjects c && matchesClassPlus techChar rawLine
          && (len rawLine <? 100)
  then (c, [gray_italic formattedLine], TechStack)
  else if negb (Classifier.inProjects c)
          && existsb (fun key => includes rawLine key) skillCategories
  then (c, [highlightSkillKey formattedLine], SkillLine)
  else if includes (toLowerCase rawLine) "verify"
  then (c, [formattedLine], VerifyLink)
  else
    (c,
     formattedLine ::
       (if Classifier.inProjects c then separatorBeforeTitle lines i else []),
     DefaultLine).

(** One iteration of the loop over the indices of [lines] (lines 136-222):
    the raw text is read first, then the formatter sorts entry [i] of the
    array in place, then the line is classified. *)
Definition classifyStep (m : Run.state) (i : nat) : Run.state :=
  match Run.lines m !! i with
  | None => m
  | Some lineItems =>
      let rawLine := rawLineOf lineItems in
      let '(formattedLine, sorted) := formatLineWithSpacing lineItems in
      let lines1 := <[i := sorted]> (Run.lines m) in
      let '(c, out, role) :=
        classifyLine lines1 i (Run.vars m) sorted rawLine formattedLine in
      Run.mk lines1 c (Run.log m ++ out) (Run.roles m ++ [role])
  end.

(** The run over the first [k] lines of a page, from the variables as
    lines 130-134 declare them. *)
Definition runStart (lines : list Line) : Run.state :=
  Run.mk lines initVars [] [].

Definition runTo (lines : list Line) (k : nat) : Run.state :=
  fold_left classifyStep (seq 0 k) (runStart lines).

Definition classifyLines (lines : list Line) : Run.state :=
  runTo lines (length lines).

(** ** The loop over the pages (lines 86-223) *)

(** One iteration of the loop over the pages: [links], [lines] and the
    five classifier variables are declared inside the loop body. *)
Definition pageStep (d : Doc.state) (page : Page.t) : Doc.state :=
  let links := pageLinks (Page.annotations page) in
  let lines := groupLines links (Page.items page) in
  let m0 := runStart lines in
  let m := fold_left classifyStep (seq 0 (length lines)) m0 in
  Doc.mk (Doc.log d ++ Run.log m)
    (Doc.starts d ++ [Run.vars m0]) (Doc.ends d ++ [Run.vars m]).

Definition extractFormattedText (pages : list Page.t) : Doc.state :=
  fold_left pageStep pages (Doc.mk [] [] []).

End Classifying.

(** ** Notions used to state the properties *)

(** A fragment that survives ingestion. *)
Definition nonBlank (item : TextItem.t) : bool :=
  negb (isEmpty (trim (TextItem.str item))).

(** Rows of fragments: inside a row every fragment is within 5 units of
    the one before it; the first fragment of a row is more than 5 units
    away from the last fragment of the row before. *)
Fixpoint closeFrom (ly : Z) (row : list TextItem.t) : bool :=
  match row with
  | [] => true
  | item :: r =>
      (Z.abs (TextItem.transform5 item - ly) <=? 5)
      && closeFrom (TextItem.transform5 item) r
  end.

Fixpoint lastYFrom (ly : Z) (row : list TextItem.t) : Z :=
  match row with
  | [] => ly
  | item :: r => lastYFrom (TextItem.transform5 item) r
  end.

Fixpoint separatedRows (prev : option Z) (rows : list (list TextItem.t)) : bool :=
  match rows with
  | [] => true
  | [] :: _ => false
  | (item :: r) :: rest =>
      let y0 := TextItem.transform5 item in
      match prev with
      | None => true
      | Some ly => 5 <? Z.abs (y0 - ly)
      end
      && closeFrom y0 r
      && separatedRows (Some (lastYFrom y0 r)) rest
  end.

(** A token whose raw text starts with a character that is not white
    space, and a line of such tokens that holds at least one. *)
Definition goodToken (t : Token.t) : Prop :=
  exists c r, Token.raw t = String c r /\ isWhiteSpace c = false.

Definition goodLine (l : Line) : Prop := l <> [] /\ Forall goodToken l.

(** The inclusive containment test of the link overlay, as a
    proposition. *)
Definition inRect (px py : Z) (r : Rect) : Prop :=
  let '(x1, y1, x2, y2) := r in x1 <= px <= x2 /\ y1 <= py <= y2.

(** The order of the formatter's sort, and the tokens at one abscissa. *)
Definition leX (a b : Token.t) : Prop := Token.x a <= Token.x b.

Definition atX (v : Z) (l : Line) : Line :=
  List.filter (fun t => Token.x t =? v) l.

(** [s] holds [p] as a substring. *)
Definition hasSubstring (s p : string) : Prop :=
  exists pre post, s = pre +:+ p +:+ post.

(** The section that decides how a line is handled: the education branch
    is tested first, then the experience branch, then the project
    branches. *)
Inductive SectionName := NoSection | Education | Experience | Projects.

Definition currentSection (c : Classifier.state) : SectionName :=
  if Classifier.inEducation c then Education
  else if Classifier.inExperience c then Experience
  else if Classifier.inProjects c then Projects
  else NoSection.

Definition flags (c : Classifier.state) : bool * bool * bool :=
  (Classifier.inProjects c, Classifier.inExperience c, Classifier.inEducation c).

Section SpecSide.
Context {chalk : Chalk}.

(** The formatter as the specification words it: a walk over the sorted
    tokens that threads [lastX]. *)
Definition separator (gap : Z) : string :=
  if 10 <? gap then TAB else if 5 <? gap then " " else EmptyString.

Definition styledText (item : Token.t) : string :=
  if isBold (Token.fontName item) then bold (Token.str item) else Token.str item.

Fixpoint formatWalk (lastX : Z) (sorted : Line) : string :=
  match sorted with
  | [] => EmptyString
  | item :: rest =>
      separator (JsNumber.sub (Token.x item) lastX) +:+ styledText item
      +:+ formatWalk
            (JsNumber.add (Token.x item) (JsNumber.mul (len (Token.str item)) 5))
            rest
  end.




(** What is printed for a title-shaped line that may not be a title. *)
Definition demotedOutput (lines : list Line) (i : nat)
    (rawLine formattedLine : string) (role : Role) : list string :=
  match role with
  | SectionHeader => [LF +:+ yellow_bold_underline (toUpperCase rawLine)]
  | TechStack => [gray_italic formattedLine]
  | VerifyLink => [formattedLine]
  | _ => formattedLine :: separatorBeforeTitle lines i
  end.

(** The formatted text of a line, as line 139 computes it. *)
Definition formattedOf (lineItems : Line) : string :=
  fst (formatLineWithSpacing lineItems).

(** What the loop body does with a line [l] found at index [i]: the new
    variables, the printed texts and the branch. *)
Definition lineOutcome (lines : list Line) (i : nat) (c : Classifier.state)
    (l : Line) : Classifier.state * list string * Role :=
  classifyLine lines i c (sortByX l) (rawLineOf l) (formattedOf l).

End SpecSide.

Section PageNotions.
Context {chalk : Chalk}.

(** The lines, the log and the final classifier variables of one page
    taken on its own. *)
Definition pageLines (page : Page.t) : list Line :=
  groupLines (pageLinks (Page.annotations page)) (Page.items page).

Definition pageLog (page : Page.t) : list string :=
  Run.log (classifyLines (pageLines page)).

Definition pageEnd (page : Page.t) : Classifier.state :=
  Run.vars (classifyLines (pageLines page)).

End PageNotions.

(** ** Concrete inputs *)

Definition fragment (text : string) (px py : Z) (font : string) : TextItem.t :=
  TextItem.mk text px py (Some font).

(** Two fragments of one row, the right one met first. *)
Definition rightThenLeft : list TextItem.t :=
  [fragment "World" 50 700 "Helvetica"; fragment "Hello" 10 700 "Helvetica"].

(** Two rows, 20 units apart; a blank fragment lies between them. *)
Definition twoRows : list (list TextItem.t) :=
  [[fragment "Jane" 10 700 "Helvetica-Bold"; fragment "Doe" 40 702 "Helvetica-Bold"];
   [fragment "Engineer" 10 680 "Helvetica"]].

Definition twoRowsItems : list TextItem.t :=
  [fragment "Jane" 10 700 "Helvetica-Bold"; fragment "Doe" 40 702 "Helvetica-Bold";
   fragment "   " 70 702 "Helvetica"; fragment "Engineer" 10 680 "Helvetica"].

(** A header that names two sections. *)
Definition doubleHeader : list TextItem.t :=
  [fragment "Experience and Education" 10 700 "Helvetica-Bold"].


(** A document whose education section runs over the page break. *)
Definition splitEducation : list Page.t :=
  [Page.mk [fragment "EDUCATION" 10 700 "Helvetica-Bold";
            fragment "Some University" 10 680 "Helvetica"] [];
   Page.mk [fragment "BSc Computing" 10 700 "Helvetica"] []].

(** A projects section with two title-shaped lines in a row. *)
Definition twoTitles : Page.t :=
  Page.mk
    [fragment "PROJECTS" 10 700 "Helvetica-Bold";
     fragment "ALPHA BETA" 10 680 "Helvetica";
     fragment "GAMMA DELTA" 10 660 "Helvetica"] [].

(** An experience section with a title line and a body line. *)
Definition experiencePage : Page.t :=
  Page.mk
    [fragment "EXPERIENCE" 10 700 "Helvetica-Bold";
     fragment "Senior Engineer" 10 680 "Helvetica-Bold";
     fragment "Built" 10 660 "Helvetica"; fragment "things" 45 660 "Helvetica"] [].

(** A line of an education section that is neither skipped nor a header. *)
Definition bodyLine (lineItems : Line) : bool :=
  negb (isEmpty (rawLineOf lineItems)) && negb (isSectionHeader (rawLineOf lineItems)).

(** The test of lines 171-175 on the array entry as the formatter left
    it. *)
Definition experienceTitleTest (l : Line) : bool :=
  isBold (firstFontName (sortByX l)) && (length (sortByX l) =? 1)%nat
  && (len (rawLineOf l) <? 40).

(** The rule that handles a title-shaped line that may not be a title. *)
Definition demotedRole (rawLine : string) : Role :=
  if isSectionHeader rawLine then SectionHeader
  else if matchesClassPlus techChar rawLine && (len rawLine <? 100) then TechStack
  else if includes (toLowerCase rawLine) "verify" then VerifyLink
  else DefaultLine.

(** ** Further notions *)

(** The kept fragments cut into rows from the left: a fragment stays in
    the row of the fragment after it when the two are at most 5 units
    apart. *)
Fixpoint rowsOf (items : list TextItem.t) : list (list TextItem.t) :=
  match items with
  | [] => []
  | item :: rest =>
      let below := rowsOf rest in
      match rest, below with
      | next :: _, row :: rows =>
          if Z.abs (TextItem.transform5 next - TextItem.transform5 item) <=? 5
          then (item :: row) :: rows
          else [item] :: row :: rows
      | _, _ => [[item]]
      end
  end.

(** The category that [highlightSkillKey] restyles: the first one, in the
    order of [skillCategories], that the line holds. *)
Definition firstCategory (line : string) : option string :=
  List.find (fun key => includes line key) skillCategories.

(** The branches open to a line that is neither skipped nor a header, by
    section. *)
Definition sectionRoles (s : SectionName) : list Role :=
  match s with
  | Education => [EducationLine]
  | Experience => [ExperienceTitle; ExperienceLine]
  | Projects => [ProjectTitle; GithubLink; TechStack; VerifyLink; DefaultLine]
  | NoSection => [SkillLine; VerifyLink; DefaultLine]
  end.

(** Two tokens that differ at most in their display text, and two pages
    of such lines. *)
Definition sameButStr (a b : Token.t) : Prop :=
  Token.raw a = Token.raw b /\ Token.x a = Token.x b
  /\ Token.fontName a = Token.fontName b.

(** Two classifier states that agree on what decides the branch. *)
Definition sameControl (c c' : Classifier.state) : Prop :=
  flags c = flags c'
  /\ Classifier.lastProjectIndex c = Classifier.lastProjectIndex c'.

Definition samePlainLines (ls ls' : list Line) : Prop :=
  Forall2 (Forall2 sameButStr) ls ls'.

(** Further concrete inputs. *)
Definition linkedThenPlain : Line :=
  [Token.mk (makeHyperlink "docs" "https://example.org") "docs" 10 700 "Helvetica";
   Token.mk "here" "here" 60 700 "Helvetica"].


(** Two tokens 10 units apart at 2^53, where a sum is rounded. *)
Definition farRight : Line :=
  [Token.mk "a" "a" (2 ^ 53) 700 "Helvetica";
   Token.mk "b" "b" (2 ^ 53 + 10) 700 "Helvetica"].

Definition threeTitles : Page.t :=
  Page.mk
    [fragment "PROJECTS" 10 700 "Helvetica-Bold";
     fragment "ALPHA-1" 10 680 "Helvetica";
     fragment "BETA-2" 10 660 "Helvetica";
     fragment "GAMMA-3" 10 640 "Helvetica"] [].

Definition skillsPage : Page.t :=
  Page.mk
    [fragment "SKILLS" 10 700 "Helvetica-Bold";
     fragment "Tools:" 10 680 "Helvetica-Bold";
     fragment "Git, Docker" 50 680 "Helvetica"] [].

Definition titleAfterText : Page.t :=
  Page.mk
    [fragment "PROJECTS" 10 700 "Helvetica-Bold";
     fragment "A tool that does 3 things." 10 680 "Helvetica";
     fragment "SECOND TOOL" 10 660 "Helvetica"] [].

(** * Properties *)

(** ** Strings *)

Local Arguments String.append !_ _ / : simpl nomatch.

(** Case analysis on the test of every conditional of the goal; [tac]
    closes the branches it can. *)
Ltac branches tac :=
  repeat (match goal with
          | |- context [if ?b then _ else _] => destruct b
          end; try tac).

Lemma append_nil_r (s : string) : s +:+ EmptyString = s.
Proof. induction s as [|c s IH]; simpl; [reflexivity | now rewrite IH]. Qed.

Lemma append_assoc (s1 s2 s3 : string) : (s1 +:+ s2) +:+ s3 = s1 +:+ s2 +:+ s3.
Proof. induction s1 as [|c s1 IH]; simpl; [reflexivity | now rewrite IH]. Qed.

Lemma startsWith_spec (s p : string) :
  startsWith s p = true <-> exists post, s = p +:+ post.
Proof.
  revert s. induction p as [|a p IH]; intros s; simpl.
  - split; [intros _; now exists s | reflexivity].
  - destruct s as [|b s].
    + split; [discriminate | intros [post H]; discriminate].
    + destruct (Ascii.eqb_spec a b) as [->|Hne].
      * rewrite IH. split; intros [post H]; exists post.
        -- now rewrite H.
        -- now injection H.
      * split; [discriminate | intros [post H]; injection H; congruence].
Qed.

Lemma includes_spec (s p : string) : includes s p = true <-> hasSubstring s p.
Proof.
  unfold hasSubstring. induction s as [|c s IH].
  - simpl. rewrite orb_false_r, startsWith_spec. split.
    + intros [post H]. now exists EmptyString, post.
    + intros ([|c pre] & post & H); [now exists post | discriminate].
  - cbn [includes]. rewrite orb_true_iff, IH, startsWith_spec. split.
    + intros [[post H] | (pre & post & H)].
      * now exists EmptyString, post.
      * exists (String c pre), post. simpl. now rewrite H.
    + intros ([|c' pre] & post & H).
      * left. now exists post.
      * right. exists pre, post. simpl in H. now injection H.
Qed.

Lemma trimStart_head (s : string) :
  trimStart s = EmptyString \/
  exists c r, trimStart s = String c r /\ isWhiteSpace c = false.
Proof.
  induction s as [|c s IH]; simpl; [now left |].
  destruct (isWhiteSpace c) eqn:Hc; [exact IH | right; eauto].
Qed.

Lemma trimEnd_cons (c : ascii) (r : string) :
  isWhiteSpace c = false -> trimEnd (String c r) = String c (trimEnd r).
Proof. intros Hc. simpl. now rewrite Hc. Qed.

Lemma trim_cons (c : ascii) (r : string) :
  isWhiteSpace c = false -> trim (String c r) = String c (trimEnd r).
Proof.
  intros Hc. unfold trim. cbn [trimStart]. rewrite Hc. now apply trimEnd_cons.
Qed.

(** A trimmed text is empty or starts with a character that is not white
    space. *)
Lemma trim_head (s : string) :
  trim s = EmptyString \/
  exists c r, trim s = String c r /\ isWhiteSpace c = false.
Proof.
  unfold trim. destruct (trimStart_head s) as [-> | (c & r & -> & Hc)].
  - now left.
  - right. exists c, (trimEnd r). now rewrite trimEnd_cons.
Qed.

Lemma trim_nonempty_head (s : string) :
  isEmpty (trim s) = false ->
  exists c r, trim s = String c r /\ isWhiteSpace c = false.
Proof.
  intros H. destruct (trim_head s) as [E | E]; [now rewrite E in H | exact E].
Qed.

Lemma trim_not_LF_prefixed (s t : string) : trim s <> LF +:+ t.
Proof.
  destruct (trim_head s) as [-> | (c & r & -> & Hc)]; [discriminate |].
  intros H. injection H as -> _. discriminate.
Qed.

Lemma join_head (sep : string) (c : ascii) (r : string) (rest : list string) :
  exists tail, join sep (String c r :: rest) = String c tail.
Proof. destruct rest; simpl; eauto. Qed.


Lemma length_append (a b : string) :
  String.length (a +:+ b) = (String.length a + String.length b)%nat.
Proof. induction a as [|c a IH]; simpl; [reflexivity | now rewrite IH]. Qed.

Lemma len_append (a b : string) : len (a +:+ b) = len a + len b.
Proof. unfold len. rewrite length_append. lia. Qed.

Lemma len_makeHyperlink (text url : string) :
  len (makeHyperlink text url) = len text + len url + 12.
Proof. unfold makeHyperlink. rewrite !len_append. unfold ESC, BEL, len. simpl. lia. Qed.

(** ** Numbers *)

(** Integers below 2^53 in absolute value are binary64 numbers: sums,
    differences and products in that range are exact. *)
Lemma round64_exact (z : Z) : Z.abs z < 2 ^ 53 -> JsNumber.round64 z = z.
Proof.
  intros H. unfold JsNumber.round64.
  now replace (Z.abs z <? 2 ^ 53) with true by (symmetry; now apply Z.ltb_lt).
Qed.

Lemma round64_opp (z : Z) : JsNumber.round64 (- z) = - JsNumber.round64 z.
Proof.
  unfold JsNumber.round64. rewrite Z.abs_opp, Z.sgn_opp.
  destruct (Z.abs z <? 2 ^ 53); [reflexivity |]. cbv zeta. ring.
Qed.

(** Rounding never crosses 2^53. *)
Lemma round64_large (z : Z) : 2 ^ 53 <= z -> 2 ^ 53 <= JsNumber.round64 z.
Proof.
  intros Hz. assert (Hpos : 0 < z) by (change (2 ^ 53) with 9007199254740992 in Hz; lia).
  unfold JsNumber.round64. rewrite (Z.abs_eq z) by lia.
  replace (z <? 2 ^ 53) with false by (symmetry; now apply Z.ltb_ge).
  cbv zeta. rewrite (Z.sgn_pos z Hpos), Z.mul_1_l.
  destruct (Z.log2_spec z Hpos) as [Hlow _].
  assert (Hlog : 53 <= Z.log2 z).
  { rewrite <- (Z.log2_pow2 53) by lia. now apply Z.log2_le_mono. }
  set (e := Z.log2 z - 52) in *.
  assert (He : 1 <= e) by (unfold e; lia).
  assert (Hpow : 2 ^ Z.log2 z = 2 ^ 52 * 2 ^ e).
  { rewrite <- Z.pow_add_r by lia. f_equal. unfold e. lia. }
  assert (H2e : 2 <= 2 ^ e).
  { change 2 with (2 ^ 1) at 1. apply Z.pow_le_mono_r; lia. }
  assert (Hq : 2 ^ 52 <= z / 2 ^ e).
  { apply Z.div_le_lower_bound; [lia |]. rewrite Z.mul_comm, <- Hpow. exact Hlow. }
  set (q := z / 2 ^ e) in *.
  assert (Hq' : q <= (if (2 ^ (e - 1) <? z mod 2 ^ e)
                         || (z mod 2 ^ e =? 2 ^ (e - 1)) && Z.odd q
                      then q + 1 else q))
    by (destruct (_ || _); lia).
  change (2 ^ 53) with (2 ^ 52 * 2). change (2 ^ 52) with 4503599627370496 in *.
  nia.
Qed.

(** Comparing a rounded number with a number below 2^53 is comparing the
    exact one: the tests of lines 65, 66 and 107 and the sign that the
    comparator of line 59 returns do not depend on the rounding. *)
Lemma round64_compare (c z : Z) :
  Z.abs c < 2 ^ 53 -> (c <? JsNumber.round64 z) = (c <? z).
Proof.
  intros Hc. change (2 ^ 53) with 9007199254740992 in Hc.
  destruct (Z_lt_le_dec (Z.abs z) (2 ^ 53)) as [Hs | Hl].
  - now rewrite round64_exact.
  - change (2 ^ 53) with 9007199254740992 in Hl.
    destruct (Z_le_gt_dec 0 z) as [Hp | Hn].
    + pose proof (round64_large z) as H. change (2 ^ 53) with 9007199254740992 in H.
      transitivity true; [apply Z.ltb_lt | symmetry; apply Z.ltb_lt]; lia.
    + pose proof (round64_large (- z)) as H. rewrite round64_opp in H.
      change (2 ^ 53) with 9007199254740992 in H.
      transitivity false; [apply Z.ltb_ge | symmetry; apply Z.ltb_ge]; lia.
Qed.

Lemma round64_abs_compare (c z : Z) :
  0 <= c < 2 ^ 53 -> (c <? Z.abs (JsNumber.round64 z)) = (c <? Z.abs z).
Proof.
  intros Hc. change (2 ^ 53) with 9007199254740992 in Hc.
  destruct (Z_lt_le_dec (Z.abs z) (2 ^ 53)) as [Hs | Hl].
  - now rewrite round64_exact.
  - change (2 ^ 53) with 9007199254740992 in Hl.
    destruct (Z_le_gt_dec 0 z) as [Hp | Hn].
    + pose proof (round64_large z) as H. change (2 ^ 53) with 9007199254740992 in H.
      transitivity true; [apply Z.ltb_lt | symmetry; apply Z.ltb_lt]; lia.
    + pose proof (round64_large (- z)) as H. rewrite round64_opp in H.
      change (2 ^ 53) with 9007199254740992 in H.
      transitivity true; [apply Z.ltb_lt | symmetry; apply Z.ltb_lt]; lia.
Qed.

(** The grouper and the sort compare exact differences; this is what the
    source computes on rounded ones. *)
Lemma startsNewLine_rounded (ly py : Z) :
  startsNewLine (Some ly) py = (5 <? Z.abs (JsNumber.sub py ly)).
Proof.
  unfold startsNewLine, JsNumber.sub. rewrite round64_abs_compare; [reflexivity |].
  change (2 ^ 53) with 9007199254740992. lia.
Qed.

Lemma comparator_sign (a b : Token.t) :
  (Token.x b <? Token.x a) = (0 <? JsNumber.sub (Token.x a) (Token.x b)).
Proof.
  unfold JsNumber.sub. rewrite round64_compare by (change (2 ^ 53) with 9007199254740992; lia).
  destruct (Z.ltb_spec (Token.x b) (Token.x a)), (Z.ltb_spec 0 (Token.x a - Token.x b));
    lia || reflexivity.
Qed.

(** ** Link overlay *)

Lemma containsPoint_inRect (px py : Z) (link : Link.t) :
  containsPoint px py link = true <-> inRect px py (Link.rect link).
Proof.
  unfold containsPoint, inRect. destruct (Link.rect link) as [[[x1 y1] x2] y2].
  rewrite !andb_true_iff, !Z.leb_le. tauto.
Qed.

(** [find] returns the first element that satisfies the test. *)
Lemma find_first {A : Type} (f : A -> bool) (l : list A) (a : A) :
  List.find f l = Some a <->
  exists pre post,
    l = pre ++ a :: post /\ f a = true /\ Forall (fun b => f b = false) pre.
Proof.
  induction l as [|b l IH]; simpl.
  - split; [discriminate | intros ([|? ?] & post & H & _); discriminate].
  - destruct (f b) eqn:Hb.
    + split.
      * intros [= ->]. exists [], l. auto.
      * intros ([|b' pre] & post & H & Ha & Hpre).
        -- now injection H as ->.
        -- injection H as -> _. apply Forall_cons in Hpre as [Hb' _]. congruence.
    + rewrite IH. split.
      * intros (pre & post & -> & Ha & Hpre). exists (b :: pre), post. auto.
      * intros ([|b' pre] & post & H & Ha & Hpre).
        -- injection H as -> _. congruence.
        -- injection H as -> ->. apply Forall_cons in Hpre as [_ Hpre]. eauto.
Qed.

Lemma find_none_iff {A : Type} (f : A -> bool) (l : list A) :
  List.find f l = None <-> Forall (fun b => f b = false) l.
Proof.
  induction l as [|b l IH]; simpl.
  - split; auto.
  - destruct (f b) eqn:Hb.
    + split; [discriminate | intros H; apply Forall_cons in H as [H _]; congruence].
    + rewrite IH. split; [auto | intros H; now apply Forall_cons in H as [_ H]].
Qed.

Section GrouperFacts.
Context {chalk : Chalk}.
Implicit Types (links : list Link.t) (g : Grouper.state) (item : TextItem.t).

(** C4. A token is linked exactly when some link rectangle contains its
    origin under the inclusive test [x1 <= x <= x2] and [y1 <= y <= y2];
    its text is then wrapped as a hyperlink to the url of the first such
    link in list order, and is its plain trimmed text when no rectangle
    contains the point. *)
Theorem link_overlay_first_match links item :
  let px := TextItem.transform4 item in
  let py := TextItem.transform5 item in
  let token := makeToken links item in
  ((exists link, findLink links px py = Some link) <->
   (exists link, In link links /\ inRect px py (Link.rect link)))
  /\ (forall link, findLink links px py = Some link <->
        exists pre post,
          links = pre ++ link :: post /\ inRect px py (Link.rect link) /\
          Forall (fun other => ~ inRect px py (Link.rect other)) pre)
  /\ (forall link, findLink links px py = Some link ->
        Token.str token =
          makeHyperlink (blue_underline (Token.raw token)) (Link.url link))
  /\ (findLink links px py = None <->
        Forall (fun other => ~ inRect px py (Link.rect other)) links)
  /\ (findLink links px py = None -> Token.str token = Token.raw token).
Proof.
  intros px py token.
  assert (Hneg : forall l : list Link.t,
             Forall (fun b => containsPoint px py b = false) l <->
             Forall (fun other => ~ inRect px py (Link.rect other)) l).
  { intros l. apply Forall_iff. intros b.
    rewrite <- containsPoint_inRect. now destruct (containsPoint px py b). }
  assert (Hfirst : forall link, findLink links px py = Some link <->
        exists pre post,
          links = pre ++ link :: post /\ inRect px py (Link.rect link) /\
          Forall (fun other => ~ inRect px py (Link.rect other)) pre).
  { intros link. unfold findLink. rewrite find_first.
    split; intros (pre & post & E & Hin & Hpre); exists pre, post;
      (split; [exact E | split; [now apply containsPoint_inRect | now apply Hneg]]). }
  assert (Hnone : findLink links px py = None <->
        Forall (fun other => ~ inRect px py (Link.rect other)) links).
  { unfold findLink. now rewrite find_none_iff, Hneg. }
  repeat split.
  - intros [link H]. exists link. apply Hfirst in H as (pre & post & -> & Hin & _).
    split; [apply in_or_app; right; now left | exact Hin].
  - intros (link & Hin & Hrect).
    destruct (findLink links px py) as [found|] eqn:E; [now exists found |].
    exfalso. destruct Hnone as [Hn _]. specialize (Hn eq_refl).
    rewrite Forall_forall in Hn.
    apply (Hn link); [now apply list_elem_of_In | exact Hrect].
  - apply Hfirst.
  - apply Hfirst.
  - intros link H. subst token. unfold makeToken. fold px py. now rewrite H.
  - apply Hnone.
  - apply Hnone.
  - intros H. subst token. unfold makeToken. fold px py. now rewrite H.
Qed.

(** ** Line grouper *)

Local Arguments groupStep : simpl never.

Lemma groupStep_blank links g item :
  nonBlank item = false -> groupStep links g item = g.
Proof.
  unfold nonBlank, groupStep. intros H.
  now destruct (isEmpty (trim (TextItem.str item))).
Qed.

Lemma groupStep_kept links g item :
  nonBlank item = true ->
  groupStep links g item =
    if startsNewLine (Grouper.lastY g) (TextItem.transform5 item)
    then Grouper.mk (pushLine (Grouper.lines g) (Grouper.currentLine g))
           [makeToken links item] (Some (TextItem.transform5 item))
    else Grouper.mk (Grouper.lines g)
           (Grouper.currentLine g ++ [makeToken links item])
           (Some (TextItem.transform5 item)).
Proof.
  unfold nonBlank, groupStep. intros H.
  destruct (isEmpty (trim (TextItem.str item))); [discriminate |].
  now destruct (startsNewLine _ _).
Qed.

(** Blank fragments do not take part in the grouping. *)
Lemma fold_group_filter links items : forall g,
  fold_left (groupStep links) items g =
  fold_left (groupStep links) (List.filter nonBlank items) g.
Proof.
  induction items as [|item items IH]; intros g; simpl; [reflexivity |].
  destruct (nonBlank item) eqn:Hb; simpl.
  - apply IH.
  - rewrite groupStep_blank by exact Hb. apply IH.
Qed.

(** The fragments of one row are appended to the current line. *)
Lemma fold_group_row links row : forall L cur ly,
  forallb nonBlank row = true -> closeFrom ly row = true ->
  fold_left (groupStep links) row (Grouper.mk L cur (Some ly)) =
  Grouper.mk L (cur ++ map (makeToken links) row) (Some (lastYFrom ly row)).
Proof.
  induction row as [|item row IH]; intros L cur ly Hnb Hclose; simpl.
  - now rewrite app_nil_r.
  - simpl in Hnb, Hclose.
    apply andb_true_iff in Hnb as [Hitem Hnb].
    apply andb_true_iff in Hclose as [Hnear Hclose].
    rewrite groupStep_kept by exact Hitem. simpl.
    apply Z.leb_le in Hnear.
    replace (5 <? Z.abs (TextItem.transform5 item - ly)) with false
      by (symmetry; apply Z.ltb_ge; exact Hnear).
    rewrite IH by assumption. now rewrite <- app_assoc.
Qed.

Lemma pushLine_cons (L : list Line) (t : Token.t) (l : Line) :
  pushLine L (t :: l) = L ++ [t :: l].
Proof. reflexivity. Qed.

(** Every row closes the line before it and becomes a line of its own. *)
Lemma fold_group_rows links rows : forall L cur prev,
  forallb nonBlank (concat rows) = true ->
  separatedRows prev rows = true ->
  let g := fold_left (groupStep links) (concat rows) (Grouper.mk L cur prev) in
  pushLine (Grouper.lines g) (Grouper.currentLine g) =
  pushLine L cur ++ map (map (makeToken links)) rows.
Proof.
  induction rows as [|row rows IH]; intros L cur prev Hnb Hsep; simpl.
  - now rewrite app_nil_r.
  - destruct row as [|item row]; [discriminate |].
    simpl in Hnb, Hsep.
    apply andb_true_iff in Hsep as [Hsep Hrest].
    apply andb_true_iff in Hsep as [Hfar Hclose].
    apply andb_true_iff in Hnb as [Hitem Hnb].
    rewrite forallb_app in Hnb. apply andb_true_iff in Hnb as [Hrow Hnb].
    rewrite fold_left_app. cbn [fold_left]. rewrite groupStep_kept by exact Hitem.
    assert (Hnew : startsNewLine prev (TextItem.transform5 item) = true)
      by (destruct prev; exact Hfar).
    cbn [Grouper.lastY]. rewrite Hnew. cbn [Grouper.lines Grouper.currentLine].
    rewrite fold_group_row by assumption.
    specialize (IH (pushLine L cur)
                  ([makeToken links item] ++ map (makeToken links) row)
                  (Some (lastYFrom (TextItem.transform5 item) row)) Hnb Hrest).
    cbv zeta in IH. etransitivity; [exact IH |].
    simpl. now rewrite <- app_assoc.
Qed.

(** C3. The grouper drops blank fragments and passes once over the
    others: a fragment met with [lastY] unset or more than 5 units away
    from [lastY] closes the current line (pushed when not empty) and
    starts a new one, any other fragment is appended to the current line,
    and [lastY] becomes the y of the fragment; the last line is pushed
    after the pass. So when the kept fragments are the concatenation of
    rows whose consecutive y-differences exceed 5 exactly at the row
    boundaries, the lines are exactly these rows, one line per row and in
    the same order. *)
Theorem line_grouper_one_line_per_row links items rows :
  List.filter nonBlank items = concat rows ->
  separatedRows None rows = true ->
  groupLines links items = map (map (makeToken links)) rows
  /\ length (groupLines links items) = length rows
  /\ (forall g item, nonBlank item = true ->
        let py := TextItem.transform5 item in
        ((Grouper.lastY g = None
          \/ exists ly, Grouper.lastY g = Some ly /\ 5 < Z.abs (py - ly)) ->
         groupStep links g item =
           Grouper.mk
             (match Grouper.currentLine g with
              | [] => Grouper.lines g
              | _ :: _ => Grouper.lines g ++ [Grouper.currentLine g]
              end)
             [makeToken links item] (Some py))
        /\ ((exists ly, Grouper.lastY g = Some ly /\ Z.abs (py - ly) <= 5) ->
            groupStep links g item =
              Grouper.mk (Grouper.lines g)
                (Grouper.currentLine g ++ [makeToken links item]) (Some py))).
Proof.
  intros Hitems Hsep.
  assert (E : groupLines links items = map (map (makeToken links)) rows).
  { unfold groupLines. rewrite fold_group_filter, Hitems.
    pose proof (fold_group_rows links rows [] [] None) as H. simpl in H.
    apply H; [| exact Hsep].
    rewrite <- Hitems. apply forallb_forall. intros item Hin.
    now apply filter_In in Hin. }
  split; [exact E |]. split; [now rewrite E, !length_map |].
  intros g item Hitem py. rewrite groupStep_kept by exact Hitem. fold py. split.
  - intros [Hnone | (ly & Hsome & Hfar)].
    + now rewrite Hnone.
    + rewrite Hsome. cbn [startsNewLine].
      now replace (5 <? Z.abs (py - ly)) with true by (symmetry; now apply Z.ltb_lt).
  - intros (ly & Hsome & Hnear). rewrite Hsome. cbn [startsNewLine].
    now replace (5 <? Z.abs (py - ly)) with false by (symmetry; now apply Z.ltb_ge).
Qed.

(** *** What the grouper hands to the classifier *)

Lemma makeToken_good links item :
  nonBlank item = true -> goodToken (makeToken links item).
Proof.
  unfold nonBlank, goodToken. intros H. apply negb_true_iff in H.
  apply trim_nonempty_head in H as (c & r & E & Hc).
  exists c, r. split; [exact E | exact Hc].
Qed.

Lemma pushLine_good (L : list Line) (cur : Line) :
  Forall goodLine L -> Forall goodToken cur -> Forall goodLine (pushLine L cur).
Proof.
  intros HL Hcur. destruct cur as [|t cur]; [exact HL |].
  rewrite pushLine_cons. apply Forall_app. split; [exact HL |].
  apply Forall_cons. split; [| constructor]. split; [discriminate | exact Hcur].
Qed.

Lemma groupStep_good links g item :
  Forall goodLine (Grouper.lines g) -> Forall goodToken (Grouper.currentLine g) ->
  Forall goodLine (Grouper.lines (groupStep links g item))
  /\ Forall goodToken (Grouper.currentLine (groupStep links g item)).
Proof.
  intros HL Hcur. destruct (nonBlank item) eqn:Hb.
  - rewrite groupStep_kept by exact Hb.
    pose proof (makeToken_good links item Hb) as Htok.
    destruct (startsNewLine _ _); simpl.
    + split; [now apply pushLine_good | now repeat constructor].
    + split; [exact HL |]. apply Forall_app. split; [exact Hcur | now repeat constructor].
  - rewrite groupStep_blank by exact Hb. now split.
Qed.

Lemma fold_group_good links items : forall g,
  Forall goodLine (Grouper.lines g) -> Forall goodToken (Grouper.currentLine g) ->
  let g' := fold_left (groupStep links) items g in
  Forall goodLine (Grouper.lines g') /\ Forall goodToken (Grouper.currentLine g').
Proof.
  induction items as [|item items IH]; intros g HL Hcur; cbn [fold_left].
  - now split.
  - destruct (groupStep_good links g item HL Hcur) as [HL' Hcur'].
    now apply IH.
Qed.

Lemma groupLines_good links items : Forall goodLine (groupLines links items).
Proof.
  unfold groupLines.
  destruct (fold_group_good links items groupInit) as [HL Hcur];
    [constructor | constructor |].
  now apply pushLine_good.
Qed.

End GrouperFacts.

Lemma goodLine_rawLine (l : Line) : goodLine l -> isEmpty (rawLineOf l) = false.
Proof.
  intros [Hne Hall]. destruct l as [|t l]; [congruence |].
  apply Forall_cons in Hall as [(c & r & E & Hc) _].
  unfold rawLineOf. cbn [map]. rewrite E.
  destruct (join_head " " c r (map Token.raw l)) as [tail ->].
  now rewrite trim_cons.
Qed.

Lemma goodLine_raw_nonempty (l : Line) :
  goodLine l -> Forall (fun t => isEmpty (Token.raw t) = false) l.
Proof.
  intros [_ Hall]. eapply Forall_impl; [exact Hall |].
  intros t (c & r & -> & _). reflexivity.
Qed.

(** ** Line formatter *)

Lemma insertByX_perm (a : Token.t) (l : Line) : Permutation (insertByX a l) (a :: l).
Proof.
  induction l as [|b l IH]; simpl; [reflexivity |].
  destruct (Token.x b <? Token.x a); [| reflexivity].
  rewrite IH. apply perm_swap.
Qed.

Lemma sortByX_perm (l : Line) : Permutation (sortByX l) l.
Proof.
  induction l as [|a l IH]; simpl; [reflexivity |].
  rewrite insertByX_perm. now rewrite IH.
Qed.

Lemma insertByX_sorted (a : Token.t) (l : Line) :
  StronglySorted leX l -> StronglySorted leX (insertByX a l).
Proof.
  induction l as [|b l IH]; intros Hs; simpl.
  - repeat constructor.
  - apply StronglySorted_inv in Hs as [Hl Hb].
    destruct (Token.x b <? Token.x a) eqn:E.
    + apply Z.ltb_lt in E. constructor; [now apply IH |].
      rewrite (insertByX_perm a l). constructor; [unfold leX; lia | exact Hb].
    + apply Z.ltb_ge in E. constructor; [now constructor |].
      constructor; [exact E |].
      eapply Forall_impl; [exact Hb |]. unfold leX. intros c Hc. lia.
Qed.

Lemma sortByX_sorted (l : Line) : StronglySorted leX (sortByX l).
Proof.
  induction l as [|a l IH]; simpl; [constructor | now apply insertByX_sorted].
Qed.

(** The sort is stable: tokens with the same abscissa keep their order. *)
Lemma insertByX_atX (v : Z) (a : Token.t) (l : Line) :
  atX v (insertByX a l) = atX v (a :: l).
Proof.
  unfold atX. induction l as [|b l IH]; simpl; [reflexivity |].
  destruct (Token.x b <? Token.x a) eqn:E; [| reflexivity].
  simpl. rewrite IH. simpl. apply Z.ltb_lt in E.
  destruct (Token.x a =? v) eqn:Ea, (Token.x b =? v) eqn:Eb; try reflexivity.
  apply Z.eqb_eq in Ea, Eb. lia.
Qed.

Lemma sortByX_atX (v : Z) (l : Line) : atX v (sortByX l) = atX v l.
Proof.
  induction l as [|a l IH]; simpl; [reflexivity |].
  rewrite insertByX_atX. unfold atX in *. simpl. now rewrite IH.
Qed.

Lemma sortByX_sorted_id (l : Line) : StronglySorted leX l -> sortByX l = l.
Proof.
  induction l as [|a l IH]; intros Hs; simpl; [reflexivity |].
  apply StronglySorted_inv in Hs as [Hl Ha]. rewrite IH by exact Hl.
  destruct l as [|b l]; simpl; [reflexivity |].
  apply Forall_cons in Ha as [Hab _]. unfold leX in Hab.
  now replace (Token.x b <? Token.x a) with false by (symmetry; apply Z.ltb_ge; lia).
Qed.

Lemma sortByX_length (l : Line) : length (sortByX l) = length l.
Proof. apply Permutation_length, sortByX_perm. Qed.

Lemma sortByX_single (l : Line) (t : Token.t) : l = [t] -> sortByX l = [t].
Proof. now intros ->. Qed.

Section FormatterFacts.
Context {chalk : Chalk}.

Lemma formatStep_walk (output : string) (lastX : Z) (item : Token.t) :
  formatStep (output, lastX) item =
  (output +:+ separator (JsNumber.sub (Token.x item) lastX) +:+ styledText item,
   JsNumber.add (Token.x item) (JsNumber.mul (len (Token.str item)) 5)).
Proof.
  unfold formatStep, separator, styledText. f_equal.
  destruct (10 <? JsNumber.sub (Token.x item) lastX); [now rewrite append_assoc |].
  destruct (5 <? JsNumber.sub (Token.x item) lastX); [now rewrite append_assoc |].
  reflexivity.
Qed.

Lemma format_fold (sorted : Line) : forall output lastX,
  fst (fold_left formatStep sorted (output, lastX)) =
  output +:+ formatWalk lastX sorted.
Proof.
  induction sorted as [|item sorted IH]; intros output lastX.
  - simpl. now rewrite append_nil_r.
  - cbn [fold_left formatWalk]. rewrite formatStep_walk, IH.
    now rewrite !append_assoc.
Qed.

Lemma formatLineWithSpacing_eq (lineItems : Line) :
  formatLineWithSpacing lineItems =
  (trim (formatWalk 0 (sortByX lineItems)), sortByX lineItems).
Proof.
  unfold formatLineWithSpacing.
  pose proof (format_fold (sortByX lineItems) EmptyString 0) as H.
  destruct (fold_left formatStep (sortByX lineItems) (EmptyString, 0)) as [output lastX].
  simpl in H. now rewrite H.
Qed.


End FormatterFacts.

(** ** The loop over the lines of a page *)

Section RunFacts.
Context {chalk : Chalk}.
Implicit Types (lines : list Line) (m : Run.state) (c : Classifier.state).

Lemma runTo_S lines k : runTo lines (S k) = classifyStep (runTo lines k) k.
Proof. unfold runTo. now rewrite seq_S, fold_left_app. Qed.

(** Only the look-ahead reads the array. *)
Lemma classifyLine_lookahead lines lines' i c l rawLine formattedLine :
  lines !! S i = lines' !! S i ->
  classifyLine lines i c l rawLine formattedLine =
  classifyLine lines' i c l rawLine formattedLine.
Proof. intros H. unfold classifyLine, separatorBeforeTitle. now rewrite H. Qed.

Lemma classifyStep_some m i l :
  Run.lines m !! i = Some l ->
  classifyStep m i =
  Run.mk (<[i := sortByX l]> (Run.lines m))
    (fst (fst (lineOutcome (<[i := sortByX l]> (Run.lines m)) i (Run.vars m) l)))
    (Run.log m
     ++ snd (fst (lineOutcome (<[i := sortByX l]> (Run.lines m)) i (Run.vars m) l)))
    (Run.roles m
     ++ [snd (lineOutcome (<[i := sortByX l]> (Run.lines m)) i (Run.vars m) l)]).
Proof.
  intros H. unfold classifyStep, lineOutcome, formattedOf. rewrite H.
  rewrite formatLineWithSpacing_eq. cbn [fst snd].
  now destruct (classifyLine _ _ _ _ _ _) as [[c out] role].
Qed.

Lemma classifyStep_none m i : Run.lines m !! i = None -> classifyStep m i = m.
Proof. intros H. unfold classifyStep. now rewrite H. Qed.

(** The array during the loop: the lines not yet visited are as the
    grouper left them, the lines already visited are sorted. *)
Lemma run_lines_ahead lines k : forall j,
  (k <= j)%nat -> Run.lines (runTo lines k) !! j = lines !! j.
Proof.
  induction k as [|k IH]; intros j Hj; [reflexivity |].
  rewrite runTo_S.
  destruct (Run.lines (runTo lines k) !! k) as [l|] eqn:E.
  - rewrite (classifyStep_some _ _ _ E). cbn [Run.lines].
    rewrite list_lookup_insert_ne by lia. apply IH. lia.
  - rewrite classifyStep_none by exact E. apply IH. lia.
Qed.

Lemma run_lines_lookup lines k j :
  Run.lines (runTo lines k) !! j =
  if decide (j < k)%nat then sortByX <$> lines !! j else lines !! j.
Proof.
  destruct (decide (j < k)%nat) as [Hlt|Hge]; [| apply run_lines_ahead; lia].
  induction k as [|k IH]; [lia |].
  pose proof (run_lines_ahead lines k k (Nat.le_refl k)) as Hk.
  rewrite runTo_S.
  destruct (lines !! k) as [l|] eqn:E.
  - rewrite (classifyStep_some _ _ _ Hk). cbn [Run.lines].
    destruct (decide (j = k)) as [->|Hne].
    + rewrite list_lookup_insert_eq by (now apply lookup_lt_Some in Hk).
      now rewrite E.
    + rewrite list_lookup_insert_ne by congruence. apply IH. lia.
  - rewrite classifyStep_none by exact Hk.
    destruct (decide (j = k)) as [->|Hne]; [now rewrite Hk, E | apply IH; lia].
Qed.

(** One iteration, in terms of the lines of the page. *)
Lemma run_step lines k l :
  lines !! k = Some l ->
  let m := runTo lines k in
  let r := lineOutcome lines k (Run.vars m) l in
  runTo lines (S k) =
  Run.mk (<[k := sortByX l]> (Run.lines m)) (fst (fst r))
    (Run.log m ++ snd (fst r)) (Run.roles m ++ [snd r]).
Proof.
  intros H. cbv zeta. rewrite runTo_S.
  assert (Hk : Run.lines (runTo lines k) !! k = Some l)
    by now rewrite run_lines_ahead.
  rewrite (classifyStep_some _ _ _ Hk).
  assert (E : lineOutcome (<[k:=sortByX l]> (Run.lines (runTo lines k))) k
                (Run.vars (runTo lines k)) l
              = lineOutcome lines k (Run.vars (runTo lines k)) l).
  { unfold lineOutcome. apply classifyLine_lookahead.
    rewrite list_lookup_insert_ne by lia. apply run_lines_ahead. lia. }
  now rewrite E.
Qed.

Lemma run_past_end lines k : lines !! k = None -> runTo lines (S k) = runTo lines k.
Proof.
  intros H. rewrite runTo_S. apply classifyStep_none. now rewrite run_lines_ahead.
Qed.

(** After the loop every line of the array is sorted. *)
Lemma run_lines_final lines : Run.lines (classifyLines lines) = map sortByX lines.
Proof.
  apply list_eq. intros j. unfold classifyLines.
  rewrite run_lines_lookup, list_lookup_fmap.
  case_decide as Hj; [reflexivity |].
  rewrite (lookup_ge_None_2 lines j) by lia. reflexivity.
Qed.

Lemma run_vars_S lines k l :
  lines !! k = Some l ->
  Run.vars (runTo lines (S k)) =
  fst (fst (lineOutcome lines k (Run.vars (runTo lines k)) l)).
Proof. intros H. pose proof (run_step lines k l H) as E. cbv zeta in E. now rewrite E. Qed.

Lemma run_log_S lines k l :
  lines !! k = Some l ->
  Run.log (runTo lines (S k)) =
  Run.log (runTo lines k)
  ++ snd (fst (lineOutcome lines k (Run.vars (runTo lines k)) l)).
Proof. intros H. pose proof (run_step lines k l H) as E. cbv zeta in E. now rewrite E. Qed.

Lemma run_roles_S lines k l :
  lines !! k = Some l ->
  Run.roles (runTo lines (S k)) =
  Run.roles (runTo lines k)
  ++ [snd (lineOutcome lines k (Run.vars (runTo lines k)) l)].
Proof. intros H. pose proof (run_step lines k l H) as E. cbv zeta in E. now rewrite E. Qed.

Lemma run_roles_length lines k :
  (k <= length lines)%nat -> length (Run.roles (runTo lines k)) = k.
Proof.
  induction k as [|k IH]; intros Hk; [reflexivity |].
  destruct (lookup_lt_is_Some_2 lines k) as [l Hl]; [lia |].
  rewrite (run_roles_S _ _ _ Hl), length_app, IH by lia. simpl. lia.
Qed.

Lemma run_roles_prefix lines n k r :
  Run.roles (runTo lines n) !! k = Some r ->
  Run.roles (runTo lines (S n)) !! k = Some r.
Proof.
  intros H. destruct (lines !! n) as [l|] eqn:E.
  - rewrite (run_roles_S _ _ _ E). now apply lookup_app_l_Some.
  - now rewrite run_past_end.
Qed.

(** The branch recorded for line [k] is the one its iteration took. *)
Lemma run_roles_lookup lines n k l :
  (k < n)%nat -> lines !! k = Some l ->
  Run.roles (runTo lines n) !! k =
  Some (snd (lineOutcome lines k (Run.vars (runTo lines k)) l)).
Proof.
  intros Hkn Hl. induction n as [|n IH]; [lia |].
  destruct (decide (k = n)) as [->|Hne].
  - rewrite (run_roles_S _ _ _ Hl).
    rewrite lookup_app_r by (rewrite run_roles_length; [lia | apply lookup_lt_Some in Hl; lia]).
    rewrite run_roles_length by (apply lookup_lt_Some in Hl; lia).
    now rewrite Nat.sub_diag.
  - apply run_roles_prefix, IH. lia.
Qed.

Lemma run_roles_final_length lines :
  length (Run.roles (classifyLines lines)) = length lines.
Proof. now apply run_roles_length. Qed.

Lemma run_roles_final lines k r :
  Run.roles (classifyLines lines) !! k = Some r <->
  exists l, lines !! k = Some l /\
            r = snd (lineOutcome lines k (Run.vars (runTo lines k)) l).
Proof.
  split.
  - intros H. pose proof (lookup_lt_Some _ _ _ H) as Hlt.
    rewrite run_roles_final_length in Hlt.
    destruct (lookup_lt_is_Some_2 lines k Hlt) as [l Hl].
    exists l. split; [exact Hl |].
    unfold classifyLines in H. rewrite (run_roles_lookup _ _ _ l Hlt Hl) in H.
    congruence.
  - intros (l & Hl & ->). unfold classifyLines.
    apply run_roles_lookup; [now apply lookup_lt_Some in Hl | exact Hl].
Qed.

(** *** The branches of the loop body *)

Lemma outcome_skipped lines i c l :
  snd (lineOutcome lines i c l) = Skipped -> isEmpty (rawLineOf l) = true.
Proof.
  unfold lineOutcome, classifyLine.
  destruct (isEmpty (rawLineOf l)); [reflexivity |].
  destruct (isSectionHeader _); [discriminate |].
  destruct (Classifier.inEducation c).
  { now destruct (Classifier.eduBuffer c ++ [formattedOf l]) as [|? [|? [|? ?]]]. }
  branches ltac:(discriminate).
Qed.

Lemma outcome_header lines i c l :
  isEmpty (rawLineOf l) = false -> isSectionHeader (rawLineOf l) = true ->
  lineOutcome lines i c l =
  (enterSection c (rawLineOf l),
   [LF +:+ yellow_bold_underline (toUpperCase (rawLineOf l))], SectionHeader).
Proof. intros H1 H2. unfold lineOutcome, classifyLine. now rewrite H1, H2. Qed.

(** The three flags change in the header branch only. *)
Lemma outcome_flags lines i c l :
  flags (fst (fst (lineOutcome lines i c l))) <> flags c ->
  isEmpty (rawLineOf l) = false /\ isSectionHeader (rawLineOf l) = true.
Proof.
  unfold lineOutcome, classifyLine.
  destruct (isEmpty (rawLineOf l)); [intros H; now elim H |].
  destruct (isSectionHeader _); [now split |].
  intros H. exfalso. apply H. clear H.
  destruct (Classifier.inEducation c).
  { now destruct (Classifier.eduBuffer c ++ [formattedOf l]) as [|? [|? [|? ?]]]. }
  branches ltac:(reflexivity).
Qed.

(** C10. Every line the grouper produces holds at least one token, every
    token has a non-empty raw text, hence the raw text of every line is
    non-empty; the classifier never takes its skip branch on the lines of
    the grouper. *)
Theorem grouped_lines_never_skipped (links : list Link.t) (items : list TextItem.t) :
  let lines := groupLines links items in
  Forall (fun l => l <> []
                   /\ Forall (fun t => isEmpty (Token.raw t) = false) l
                   /\ isEmpty (rawLineOf l) = false) lines
  /\ Forall (fun role => role <> Skipped) (Run.roles (classifyLines lines)).
Proof.
  intros lines. pose proof (groupLines_good links items) as Hgood. fold lines in Hgood.
  split.
  - eapply Forall_impl; [exact Hgood |]. intros l Hl. split; [apply Hl |].
    split; [now apply goodLine_raw_nonempty | now apply goodLine_rawLine].
  - apply Forall_lookup. intros k role Hrole ->.
    apply run_roles_final in Hrole as (l & Hl & Hrole).
    symmetry in Hrole. apply outcome_skipped in Hrole.
    rewrite Forall_lookup in Hgood. specialize (Hgood k l Hl).
    apply goodLine_rawLine in Hgood. congruence.
Qed.

(** C9, as the code has it. Formatting a line sorts the stored array of
    its tokens in place: after the call the stored sequence is the stable
    ascending-x arrangement of the discovery order (the same tokens, none
    changed), so it is unchanged only when it was already in that order;
    after the loop over a page every stored line is sorted. *)
Theorem formatting_sorts_stored_line (lineItems : Line) (lines : list Line) :
  let stored := snd (formatLineWithSpacing lineItems) in
  stored = sortByX lineItems
  /\ Permutation stored lineItems
  /\ StronglySorted leX stored
  /\ (forall v, atX v stored = atX v lineItems)
  /\ (StronglySorted leX lineItems -> stored = lineItems)
  /\ Run.lines (classifyLines lines) = map sortByX lines.
Proof.
  intros stored. subst stored. rewrite formatLineWithSpacing_eq. cbn [snd].
  split; [reflexivity |].
  split; [apply sortByX_perm |].
  split; [apply sortByX_sorted |].
  split; [intros v; apply sortByX_atX |].
  split; [apply sortByX_sorted_id | apply run_lines_final].
Qed.

Lemma isSectionHeader_spec (text : string) :
  isSectionHeader text = true <->
  exists word rest, In word keywords /\ toLowerCase text = word +:+ rest.
Proof.
  unfold isSectionHeader. rewrite existsb_exists. split.
  - intros (word & Hin & H). apply startsWith_spec in H as [rest H]. eauto.
  - intros (word & rest & Hin & H). exists word. split; [exact Hin |].
    apply startsWith_spec. eauto.
Qed.

(** How a line is handled depends on the flags through [currentSection]
    only. *)
Lemma outcome_section lines i c c' l :
  currentSection c = currentSection c' ->
  Classifier.lastProjectIndex c = Classifier.lastProjectIndex c' ->
  Classifier.eduBuffer c = Classifier.eduBuffer c' ->
  snd (fst (lineOutcome lines i c l)) = snd (fst (lineOutcome lines i c' l))
  /\ snd (lineOutcome lines i c l) = snd (lineOutcome lines i c' l).
Proof.
  destruct c as [p e d last buf], c' as [p' e' d' last' buf'].
  unfold currentSection. cbn [Classifier.inProjects Classifier.inExperience
    Classifier.inEducation Classifier.lastProjectIndex Classifier.eduBuffer].
  intros Hsec -> ->. unfold lineOutcome, classifyLine.
  cbn [Classifier.inProjects Classifier.inExperience Classifier.inEducation
       Classifier.lastProjectIndex Classifier.eduBuffer].
  destruct (isEmpty (rawLineOf l)); [now split |].
  destruct (isSectionHeader (rawLineOf l)); [now split |].
  destruct p, e, d, p', e', d'; simpl in Hsec; try discriminate; cbn [andb negb];
    try (now destruct (buf' ++ [formattedOf l]) as [|? [|? [|? ?]]]);
    branches ltac:(now split).
Qed.

(** C2, as the code has it. The section state is three independent flags;
    the section that decides the handling of a line is one of four values
    read from them by priority; a header sets each flag by whether its
    lower-cased text holds "project", "experience", "education"; every
    page starts with the three flags cleared, and within a page the flags
    change at recognised section headers only. *)
Theorem section_flags_change_at_headers (lines : list Line) (k : nat) :
  (flags (Run.vars (runTo lines (S k))) <> flags (Run.vars (runTo lines k)) ->
   exists l, lines !! k = Some l /\ isEmpty (rawLineOf l) = false
             /\ isSectionHeader (rawLineOf l) = true)
  /\ (forall l, lines !! k = Some l -> isEmpty (rawLineOf l) = false ->
        isSectionHeader (rawLineOf l) = true ->
        flags (Run.vars (runTo lines (S k))) =
          (includes (toLowerCase (rawLineOf l)) "project",
           includes (toLowerCase (rawLineOf l)) "experience",
           includes (toLowerCase (rawLineOf l)) "education"))
  /\ flags (Run.vars (runTo lines 0)) = (false, false, false)
  /\ (forall text, isSectionHeader text = true <->
        exists word rest, In word keywords /\ toLowerCase text = word +:+ rest)
  /\ (forall c c' i l,
        currentSection c = currentSection c' ->
        Classifier.lastProjectIndex c = Classifier.lastProjectIndex c' ->
        Classifier.eduBuffer c = Classifier.eduBuffer c' ->
        snd (fst (lineOutcome lines i c l)) = snd (fst (lineOutcome lines i c' l))
        /\ snd (lineOutcome lines i c l) = snd (lineOutcome lines i c' l)).
Proof.
  split; [| split; [| split; [| split]]].
  - intros Hchg. destruct (lines !! k) as [l|] eqn:Hl.
    + exists l. split; [reflexivity |].
      rewrite (run_vars_S _ _ _ Hl) in Hchg. now apply outcome_flags in Hchg.
    + rewrite run_past_end in Hchg by exact Hl. now elim Hchg.
  - intros l Hl Hne Hhd. rewrite (run_vars_S _ _ _ Hl).
    now rewrite outcome_header.
  - reflexivity.
  - apply isSectionHeader_spec.
  - intros c c' i l. apply outcome_section.
Qed.

(** *** Education lines *)







Lemma withBuffer_twice c (b b' : list string) :
  withBuffer (withBuffer c b) b' = withBuffer c b'.
Proof. reflexivity. Qed.

Lemma bodyLine_spec (l : Line) :
  bodyLine l = true <->
  isEmpty (rawLineOf l) = false /\ isSectionHeader (rawLineOf l) = false.
Proof. unfold bodyLine. rewrite andb_true_iff, !negb_true_iff. tauto. Qed.






(** *** Project titles *)

Lemma allChars_app (P : ascii -> bool) (a b : string) :
  allChars P (a +:+ b) = allChars P a && allChars P b.
Proof.
  induction a as [|ch a IH]; simpl; [reflexivity |].
  now rewrite IH, andb_assoc.
Qed.

Lemma isProjectTitle_not_github (rawLine : string) :
  isProjectTitle rawLine = true -> isGithubLink rawLine = false.
Proof.
  unfold isProjectTitle, matchesClassPlus, isGithubLink. intros H.
  apply andb_true_iff in H as [H _]. apply andb_true_iff in H as [_ H].
  destruct (includes rawLine "github.com") eqn:E; [| reflexivity].
  apply includes_spec in E as (pre & post & ->).
  rewrite allChars_app, andb_true_iff in H. destruct H as [_ H].
  simpl in H. discriminate.
Qed.

Lemma isProjectTitle_nonempty (rawLine : string) :
  isProjectTitle rawLine = true -> isEmpty rawLine = false.
Proof.
  unfold isProjectTitle, matchesClassPlus. intros H.
  apply andb_true_iff in H as [H _]. apply andb_true_iff in H as [H _].
  now apply negb_true_iff in H.
Qed.

Lemma currentSection_projects c :
  currentSection c = Projects ->
  Classifier.inEducation c = false /\ Classifier.inExperience c = false
  /\ Classifier.inProjects c = true.
Proof.
  unfold currentSection.
  destruct (Classifier.inEducation c), (Classifier.inExperience c),
    (Classifier.inProjects c); try discriminate; auto.
Qed.

Lemma outcome_title_inv lines i c l :
  snd (lineOutcome lines i c l) = ProjectTitle ->
  fst (fst (lineOutcome lines i c l)) = withLastProjectIndex c (Z.of_nat i)
  /\ snd (fst (lineOutcome lines i c l)) =
       [EmptyString; cyan_bold_underline (formattedOf l)]
  /\ currentSection c = Projects
  /\ isProjectTitle (rawLineOf l) = true
  /\ 1 < Z.of_nat i - Classifier.lastProjectIndex c.
Proof.
  unfold lineOutcome, classifyLine, currentSection.
  destruct (isEmpty (rawLineOf l)); [discriminate |].
  destruct (isSectionHeader _); [discriminate |].
  destruct (Classifier.inEducation c).
  { now destruct (Classifier.eduBuffer c ++ [formattedOf l]) as [|? [|? [|? ?]]]. }
  destruct (Classifier.inExperience c).
  { now destruct (isBold _ && _ && _). }
  destruct (Classifier.inProjects c); cbn [andb negb].
  - destruct (isProjectTitle (rawLineOf l)); cbn [andb].
    + destruct (1 <? Z.of_nat i - Classifier.lastProjectIndex c) eqn:E.
      * intros _. apply Z.ltb_lt in E. auto.
      * branches ltac:(discriminate).
    + branches ltac:(discriminate).
  - branches ltac:(discriminate).
Qed.

(** A title-shaped line of the projects section right after a title. *)
Lemma outcome_demoted lines i c l :
  currentSection c = Projects -> isProjectTitle (rawLineOf l) = true ->
  Z.of_nat i - Classifier.lastProjectIndex c <= 1 ->
  snd (lineOutcome lines i c l) = demotedRole (rawLineOf l)
  /\ snd (fst (lineOutcome lines i c l)) =
       demotedOutput lines i (rawLineOf l) (formattedOf l) (demotedRole (rawLineOf l)).
Proof.
  intros Hsec Htitle Hidx.
  apply currentSection_projects in Hsec as (Hedu & Hexp & Hproj).
  unfold lineOutcome, classifyLine, demotedRole, demotedOutput.
  rewrite (isProjectTitle_nonempty _ Htitle), Hedu, Hexp, Hproj, Htitle.
  rewrite (isProjectTitle_not_github _ Htitle).
  replace (1 <? Z.of_nat i - Classifier.lastProjectIndex c) with false
    by (symmetry; now apply Z.ltb_ge).
  cbn [andb negb].
  destruct (isSectionHeader (rawLineOf l)); [now split |].
  destruct (matchesClassPlus techChar (rawLineOf l) && (len (rawLineOf l) <? 100));
    [now split |].
  destruct (includes (toLowerCase (rawLineOf l)) "verify"); now split.
Qed.

(** C7, as the code has it. Two consecutive lines are never both styled
    as project titles: a line styled as a title is a title-shaped line of
    the projects section, and the line after it is not styled as a title.
    When that next line is title-shaped too it goes to the later rules: it
    is printed as a header when it starts with a section keyword, muted
    italic as a tech-stack line when it holds only letters, commas and
    white space and is under 100 characters, as it is when it holds
    "verify", and by the default rule otherwise. *)
Theorem consecutive_titles_not_both_styled (lines : list Line) (k : nat) :
  Run.roles (classifyLines lines) !! k = Some ProjectTitle ->
  Run.roles (classifyLines lines) !! S k <> Some ProjectTitle
  /\ (exists l, lines !! k = Some l /\ isProjectTitle (rawLineOf l) = true
                /\ currentSection (Run.vars (runTo lines k)) = Projects)
  /\ (forall l', lines !! S k = Some l' -> isProjectTitle (rawLineOf l') = true ->
        Run.roles (classifyLines lines) !! S k = Some (demotedRole (rawLineOf l'))
        /\ Run.log (runTo lines (S (S k))) =
             Run.log (runTo lines (S k))
             ++ demotedOutput lines (S k) (rawLineOf l') (formattedOf l')
                  (demotedRole (rawLineOf l'))).
Proof.
  intros Hk. apply run_roles_final in Hk as (l & Hl & Hrole). symmetry in Hrole.
  apply outcome_title_inv in Hrole as (Hvars & _ & Hsec & Htitle & _).
  rewrite <- (run_vars_S _ _ _ Hl) in Hvars.
  assert (Hsec' : currentSection (Run.vars (runTo lines (S k))) = Projects)
    by (rewrite Hvars; exact Hsec).
  assert (Hlast : Classifier.lastProjectIndex (Run.vars (runTo lines (S k)))
                  = Z.of_nat k) by now rewrite Hvars.
  split; [| split].
  - intros Hnext. apply run_roles_final in Hnext as (l' & Hl' & Hrole').
    symmetry in Hrole'. apply outcome_title_inv in Hrole' as (_ & _ & _ & _ & Hidx).
    rewrite Hlast in Hidx. lia.
  - exists l. auto.
  - intros l' Hl' Htitle'.
    destruct (outcome_demoted lines (S k) (Run.vars (runTo lines (S k))) l'
                Hsec' Htitle') as [Hr Ho]; [rewrite Hlast; lia |].
    split.
    + apply run_roles_final. exists l'. split; [exact Hl' | now rewrite Hr].
    + now rewrite (run_log_S _ _ _ Hl'), Ho.
Qed.

(** *** Experience lines *)

Lemma currentSection_experience c :
  currentSection c = Experience ->
  Classifier.inEducation c = false /\ Classifier.inExperience c = true.
Proof.
  unfold currentSection.
  destruct (Classifier.inEducation c), (Classifier.inExperience c),
    (Classifier.inProjects c); try discriminate; auto.
Qed.

Lemma outcome_experience lines i c l :
  bodyLine l = true -> currentSection c = Experience ->
  lineOutcome lines i c l =
  if experienceTitleTest l
  then (c, [LF +:+ cyan_bold_underline (rawLineOf l)], ExperienceTitle)
  else (c, [formattedOf l], ExperienceLine).
Proof.
  intros Hb Hsec. apply bodyLine_spec in Hb as [H1 H2].
  apply currentSection_experience in Hsec as [Hedu Hexp].
  unfold lineOutcome, classifyLine, experienceTitleTest.
  now rewrite H1, H2, Hedu, Hexp.
Qed.

Lemma experienceTitleTest_spec (l : Line) :
  experienceTitleTest l = true <->
  (exists t, l = [t] /\ isBold (Token.fontName t) = true)
  /\ len (rawLineOf l) < 40.
Proof.
  unfold experienceTitleTest. rewrite !andb_true_iff, Z.ltb_lt, Nat.eqb_eq.
  rewrite sortByX_length. split.
  - intros [[Hbold Hlen] Hraw]. split; [| exact Hraw].
    destruct l as [|t [|? ?]]; try discriminate. exists t. split; [reflexivity | exact Hbold].
  - intros [(t & -> & Hbold) Hraw]. auto.
Qed.

Lemma formattedOf_not_LF (l : Line) (s : string) : formattedOf l <> LF +:+ s.
Proof.
  unfold formattedOf. rewrite formatLineWithSpacing_eq. apply trim_not_LF_prefixed.
Qed.

Lemma rawLineOf_single (t : Token.t) : rawLineOf [t] = trim (Token.raw t).
Proof. reflexivity. Qed.

Lemma experience_scenario (t1 t2 : Token.t) :
  Token.raw t1 = "EXPERIENCE" -> Token.raw t2 = "Senior Engineer" ->
  isBold (Token.fontName t2) = true ->
  Run.log (classifyLines [[t1]; [t2]]) =
    [LF +:+ yellow_bold_underline "EXPERIENCE";
     LF +:+ cyan_bold_underline "Senior Engineer"].
Proof.
  intros H1 H2 Hbold.
  set (page := [[t1]; [t2]]).
  assert (L0 : page !! 0%nat = Some [t1]) by reflexivity.
  assert (L1 : page !! 1%nat = Some [t2]) by reflexivity.
  assert (R1 : rawLineOf [t1] = "EXPERIENCE")
    by (rewrite rawLineOf_single, H1; reflexivity).
  assert (R2 : rawLineOf [t2] = "Senior Engineer")
    by (rewrite rawLineOf_single, H2; reflexivity).
  change (classifyLines page) with (runTo page 2).
  rewrite (run_log_S _ _ _ L1), (run_log_S _ _ _ L0).
  rewrite (run_vars_S _ _ _ L0).
  rewrite (outcome_header page 0 _ [t1]) by (rewrite R1; reflexivity).
  rewrite R1. cbn [fst snd].
  rewrite (outcome_experience page 1 _ [t2]);
    [| unfold bodyLine; rewrite R2; reflexivity | reflexivity].
  replace (experienceTitleTest [t2]) with true.
  - rewrite R2. reflexivity.
  - symmetry. apply experienceTitleTest_spec. split.
    + exists t2. auto.
    + rewrite R2. reflexivity.
Qed.

(** C8. In the experience section a non-header line is printed with
    header-like styling after a blank line exactly when it has one token,
    the font of that token is bold-class and the raw text has fewer than
    40 characters; any other line is printed as its formatted text. The
    lines ["EXPERIENCE"] and ["Senior Engineer"] (one bold token) print
    the header-styled "EXPERIENCE", then a blank line and the
    header-styled "Senior Engineer". *)
Theorem experience_title_lines (lines : list Line) (k : nat) (l : Line) :
  lines !! k = Some l ->
  bodyLine l = true ->
  currentSection (Run.vars (runTo lines k)) = Experience ->
  let isTitle :=
    (exists t, l = [t] /\ isBold (Token.fontName t) = true)
    /\ len (rawLineOf l) < 40 in
  (isTitle ->
     Run.log (runTo lines (S k)) =
       Run.log (runTo lines k) ++ [LF +:+ cyan_bold_underline (rawLineOf l)])
  /\ (~ isTitle ->
        Run.log (runTo lines (S k)) = Run.log (runTo lines k) ++ [formattedOf l])
  /\ (Run.log (runTo lines (S k)) =
        Run.log (runTo lines k) ++ [LF +:+ cyan_bold_underline (rawLineOf l)]
      <-> isTitle)
  /\ Run.vars (runTo lines (S k)) = Run.vars (runTo lines k)
  /\ (forall t1 t2,
        Token.raw t1 = "EXPERIENCE" -> Token.raw t2 = "Senior Engineer" ->
        isBold (Token.fontName t2) = true ->
        Run.log (classifyLines [[t1]; [t2]]) =
          [LF +:+ yellow_bold_underline "EXPERIENCE";
           LF +:+ cyan_bold_underline "Senior Engineer"]).
Proof.
  intros Hl Hbody Hsec isTitle.
  pose proof (outcome_experience lines k _ l Hbody Hsec) as Hout.
  pose proof (experienceTitleTest_spec l) as Htest. fold isTitle in Htest.
  rewrite (run_log_S _ _ _ Hl), (run_vars_S _ _ _ Hl), Hout.
  destruct (experienceTitleTest l); cbn [fst snd].
  - assert (Ht : isTitle) by now apply Htest.
    split; [reflexivity |]. split; [tauto |]. split; [tauto |].
    split; [reflexivity | apply experience_scenario].
  - assert (Ht : ~ isTitle) by (intros H; apply Htest in H; discriminate).
    split; [tauto |]. split; [reflexivity |]. split.
    + split; [| tauto]. intros E. apply app_inv_head in E.
      injection E as E. now apply formattedOf_not_LF in E.
    + split; [reflexivity | apply experience_scenario].
Qed.

(** ** The loop over the pages *)

Lemma pageStep_eq (d : Doc.state) (page : Page.t) :
  pageStep d page =
  Doc.mk (Doc.log d ++ pageLog page) (Doc.starts d ++ [initVars])
    (Doc.ends d ++ [pageEnd page]).
Proof. reflexivity. Qed.

Lemma pages_fold (pages : list Page.t) : forall d,
  fold_left pageStep pages d =
  Doc.mk (Doc.log d ++ concat (map pageLog pages))
    (Doc.starts d ++ map (fun _ => initVars) pages)
    (Doc.ends d ++ map pageEnd pages).
Proof.
  induction pages as [|page pages IH]; intros d; cbn [fold_left map concat].
  - rewrite !app_nil_r. now destruct d.
  - rewrite IH, pageStep_eq. cbn [Doc.log Doc.starts Doc.ends].
    now rewrite <- !app_assoc.
Qed.

(** C1, as the code has it. The classifier variables are declared inside
    the loop over the pages: the line loop of every page starts from the
    initial variables, whatever the variables were at the end of the page
    before, and the output of a document is the output of its pages, each
    classified on its own, in document order. *)
Theorem classifier_state_is_fresh_on_each_page (pages : list Page.t) :
  let d := extractFormattedText pages in
  Doc.starts d = map (fun _ => initVars) pages
  /\ Doc.ends d = map pageEnd pages
  /\ Doc.log d = concat (map pageLog pages)
  /\ (forall n start, Doc.starts d !! n = Some start -> start = initVars).
Proof.
  intros d. subst d. unfold extractFormattedText. rewrite pages_fold.
  cbn [Doc.log Doc.starts Doc.ends app].
  repeat split. induction pages as [|page pages IH]; intros [|n] start;
    cbn [map]; try discriminate.
  - now intros [= <-].
  - apply IH.
Qed.

End RunFacts.

(** ** Concrete runs *)

(** C1 fails as stated: the education section of [splitEducation] runs
    over the page break; the first page ends inside the section with one
    line in the buffer, the second page starts from the initial variables
    and prints its line as plain text, never as the subtitle of a pair. *)
Lemma state_not_shared_across_pages :
  Doc.starts (extractFormattedText (chalk := plainChalk) splitEducation) !! 1%nat
    <> Doc.ends (extractFormattedText (chalk := plainChalk) splitEducation) !! 0%nat
  /\ Doc.ends (extractFormattedText (chalk := plainChalk) splitEducation) !! 0%nat
     = Some (Classifier.mk false false true (-2) ["Some University"])
  /\ Doc.log (extractFormattedText (chalk := plainChalk) splitEducation)
     = [LF +:+ "EDUCATION"; "BSc Computing"].
Proof.
  split; [| split].
  - intros H. vm_compute in H. discriminate H.
  - vm_compute. reflexivity.
  - vm_compute. reflexivity.
Qed.

(** C2 fails as stated: after the header "Experience and Education" the
    experience flag and the education flag are both set; and in
    [splitEducation] the section is the education section at the end of
    the first page and no section at the start of the second, whose only
    line is not a header. *)
Lemma two_section_flags_set_together :
  Classifier.inExperience
    (Run.vars (classifyLines (chalk := plainChalk)
                 (groupLines (chalk := plainChalk) [] doubleHeader))) = true
  /\ Classifier.inEducation
       (Run.vars (classifyLines (chalk := plainChalk)
                    (groupLines (chalk := plainChalk) [] doubleHeader))) = true
  /\ currentSection
       <$> Doc.ends (extractFormattedText (chalk := plainChalk) splitEducation) !! 0%nat
     = Some Education
  /\ currentSection
       <$> Doc.starts (extractFormattedText (chalk := plainChalk) splitEducation) !! 1%nat
     = Some NoSection
  /\ Run.roles (classifyLines (chalk := plainChalk)
                  (pageLines (chalk := plainChalk)
                     (Page.mk [fragment "BSc Computing" 10 700 "Helvetica"] [])))
     = [DefaultLine].
Proof. repeat split; vm_compute; reflexivity. Qed.

(** C7 fails as stated: in [twoTitles] the second of two title-shaped
    lines is not printed by the default rule but muted italic, as a
    tech-stack line; and in [threeTitles] the lines "BETA-2" and
    "GAMMA-3" are two consecutive title-shaped lines of which the second
    is styled as a title, because the first was not. *)
Lemma demoted_title_printed_as_tech_stack :
  Run.roles (classifyLines (chalk := ansiChalk) (pageLines (chalk := ansiChalk) twoTitles))
    = [SectionHeader; ProjectTitle; TechStack]
  /\ last (Run.log (classifyLines (chalk := ansiChalk)
                      (pageLines (chalk := ansiChalk) twoTitles)))
     = Some (gray_italic (Chalk := ansiChalk) "GAMMA DELTA")
  /\ last (Run.log (classifyLines (chalk := ansiChalk)
                      (pageLines (chalk := ansiChalk) twoTitles)))
     <> Some "GAMMA DELTA"
  /\ Run.roles (classifyLines (chalk := ansiChalk)
                  (pageLines (chalk := ansiChalk) threeTitles))
     = [SectionHeader; ProjectTitle; DefaultLine; ProjectTitle]
  /\ map (fun l => isProjectTitle (rawLineOf l))
         (pageLines (chalk := ansiChalk) threeTitles)
     = [true; true; true; true].
Proof.
  split; [| split; [| split; [| split]]].
  - vm_compute. reflexivity.
  - vm_compute. reflexivity.
  - intros H. vm_compute in H. discriminate H.
  - vm_compute. reflexivity.
  - vm_compute. reflexivity.
Qed.

(** C9 fails as stated: the grouper stores "World" before "Hello"; after
    the line was formatted the stored line holds "Hello" first. *)
Lemma formatting_reorders_stored_line :
  map (map Token.raw) (groupLines (chalk := plainChalk) [] rightThenLeft)
    = [["World"; "Hello"]]
  /\ map (map Token.raw)
       (Run.lines (classifyLines (chalk := plainChalk)
                     (groupLines (chalk := plainChalk) [] rightThenLeft)))
     = [["Hello"; "World"]]
  /\ snd (formatLineWithSpacing (chalk := plainChalk)
            [Token.mk "World" "World" 50 700 "Helvetica";
             Token.mk "Hello" "Hello" 10 700 "Helvetica"])
     <> [Token.mk "World" "World" 50 700 "Helvetica";
         Token.mk "Hello" "Hello" 10 700 "Helvetica"].
Proof.
  split; [| split].
  - vm_compute. reflexivity.
  - vm_compute. reflexivity.
  - intros H. vm_compute in H. discriminate H.
Qed.

(** The grouper on [twoRowsItems]: the blank fragment is dropped and each
    of the two rows becomes one line. *)
Lemma line_grouper_two_rows :
  groupLines (chalk := plainChalk) [] twoRowsItems
    = map (map (makeToken (chalk := plainChalk) [])) twoRows
  /\ length (groupLines (chalk := plainChalk) [] twoRowsItems) = length twoRows.
Proof.
  pose proof (line_grouper_one_line_per_row (chalk := plainChalk) []
                twoRowsItems twoRows) as H.
  destruct H as (Hlines & Hcount & _).
  - reflexivity.
  - reflexivity.
  - split; [exact Hlines | exact Hcount].
Defined.


(** The projects section of [twoTitles]: line 1 is styled as a title,
    line 2 is not. *)
Lemma second_title_not_styled :
  Run.roles (classifyLines (chalk := ansiChalk) (pageLines (chalk := ansiChalk) twoTitles))
    !! 2%nat <> Some ProjectTitle.
Proof.
  apply (consecutive_titles_not_both_styled (chalk := ansiChalk)
           (pageLines (chalk := ansiChalk) twoTitles) 1).
  vm_compute. reflexivity.
Defined.

(** The experience section of [experiencePage]: line 1 is a title, line 2
    is printed as its formatted text. *)
Lemma experience_body_line :
  Run.log (runTo (chalk := plainChalk) (pageLines (chalk := plainChalk) experiencePage) 3)
    = Run.log (runTo (chalk := plainChalk) (pageLines (chalk := plainChalk) experiencePage) 2)
      ++ ["Built things"].
Proof.
  pose proof (experience_title_lines (chalk := plainChalk)
                (pageLines (chalk := plainChalk) experiencePage) 2
                (map (makeToken (chalk := plainChalk) [])
                   [fragment "Built" 10 660 "Helvetica";
                    fragment "things" 45 660 "Helvetica"])) as H.
  destruct H as (_ & Hbody & _).
  - reflexivity.
  - reflexivity.
  - reflexivity.
  - apply Hbody. intros [(t & E & _) _]. discriminate E.
Defined.

(** * Further properties *)

(** ** The filter on the annotations (lines 91-93) *)

Lemma usableLink_spec (ann : Annotation.t) (link : Link.t) :
  usableLink ann = Some link <->
  Annotation.url ann = Some (Link.url link) /\ Link.url link <> EmptyString
  /\ Annotation.rect ann = Some (Link.rect link).
Proof.
  unfold usableLink. destruct ann as [[u|] [r|]], link as [u' r']; simpl.
  - destruct u as [|c u]; simpl.
    + split; [discriminate | intros ([= <-] & H & _); now elim H].
    + split.
      * intros [= <- <-]. now repeat split.
      * intros ([= <-] & _ & [= <-]). reflexivity.
  - split; [discriminate | intros (_ & _ & H); discriminate].
  - split; [discriminate | intros (H & _); discriminate].
  - split; [discriminate | intros (H & _); discriminate].
Qed.

(** X1. The links of a page are exactly the annotations that carry a
    non-empty url and a rect, in the order of the annotations: an
    annotation without url, with an empty url or without rect never
    links a token. *)
Theorem page_links_are_usable_annotations (annotations more : list Annotation.t) :
  (forall link, In link (pageLinks annotations) <->
     exists ann, In ann annotations
       /\ Annotation.url ann = Some (Link.url link)
       /\ Link.url link <> EmptyString
       /\ Annotation.rect ann = Some (Link.rect link))
  /\ pageLinks (annotations ++ more) = pageLinks annotations ++ pageLinks more
  /\ (length (pageLinks annotations) <= length annotations)%nat.
Proof.
  split; [| split].
  - intros link. unfold pageLinks.
    induction annotations as [|ann anns IH]; simpl.
    + split; [intros [] | intros (ann & [] & _)].
    + destruct (usableLink ann) as [found|] eqn:E; simpl; rewrite IH; split.
      * intros [<- | (a & Hin & H)].
        -- exists ann. split; [now left | now apply usableLink_spec].
        -- exists a. split; [now right | exact H].
      * intros (a & [<- | Hin] & H).
        -- left. apply usableLink_spec in H. congruence.
        -- right. now exists a.
      * intros (a & Hin & H). exists a. split; [now right | exact H].
      * intros (a & [<- | Hin] & H).
        -- apply usableLink_spec in H. congruence.
        -- now exists a.
  - unfold pageLinks. induction annotations as [|ann anns IH]; simpl; [reflexivity |].
    destruct (usableLink ann); simpl; [f_equal |]; exact IH.
  - unfold pageLinks. induction annotations as [|ann anns IH]; simpl; [lia |].
    destruct (usableLink ann); simpl; unfold omap in IH; lia.
Qed.

(** ** The rows of the grouper (lines 95-128) *)

Lemma rowsOf_cons (item next : TextItem.t) (rest : list TextItem.t) :
  rowsOf (item :: next :: rest) =
  match rowsOf (next :: rest) with
  | row :: rows =>
      if Z.abs (TextItem.transform5 next - TextItem.transform5 item) <=? 5
      then (item :: row) :: rows
      else [item] :: row :: rows
  | [] => [[item]]
  end.
Proof. reflexivity. Qed.

Lemma rowsOf_head (item : TextItem.t) (rest : list TextItem.t) :
  exists row rows, rowsOf (item :: rest) = (item :: row) :: rows.
Proof.
  revert item. induction rest as [|next rest IH]; intros item.
  - now exists [], [].
  - rewrite rowsOf_cons. destruct (IH next) as (row & rows & ->).
    destruct (_ <=? 5); eauto.
Qed.

Lemma rowsOf_concat (items : list TextItem.t) : concat (rowsOf items) = items.
Proof.
  induction items as [|item [|next rest] IH]; try reflexivity.
  rewrite rowsOf_cons. destruct (rowsOf_head next rest) as (row & rows & E).
  rewrite E in *. destruct (_ <=? 5); simpl in *; now rewrite IH.
Qed.

Lemma rowsOf_length (items : list TextItem.t) :
  (length (rowsOf items) <= length items)%nat.
Proof.
  induction items as [|item [|next rest] IH]; simpl; try lia.
  change (length (rowsOf (item :: next :: rest)) <= S (S (length rest)))%nat.
  rewrite rowsOf_cons. destruct (rowsOf_head next rest) as (row & rows & E).
  rewrite E in *. destruct (_ <=? 5); simpl in *; lia.
Qed.

Lemma separatedRows_cons (prev : option Z) (item : TextItem.t)
    (r : list TextItem.t) (rest : list (list TextItem.t)) :
  separatedRows prev ((item :: r) :: rest) =
  match prev with
  | None => true
  | Some ly => 5 <? Z.abs (TextItem.transform5 item - ly)
  end
  && closeFrom (TextItem.transform5 item) r
  && separatedRows (Some (lastYFrom (TextItem.transform5 item) r)) rest.
Proof. reflexivity. Qed.

Lemma rowsOf_separated (items : list TextItem.t) : forall prev,
  match items, prev with
  | item :: _, Some ly => 5 < Z.abs (TextItem.transform5 item - ly)
  | _, _ => True
  end ->
  separatedRows prev (rowsOf items) = true.
Proof.
  induction items as [|item [|next rest] IH]; intros prev Hfar.
  - reflexivity.
  - simpl. destruct prev as [ly|]; [| reflexivity].
    now rewrite andb_true_r, andb_true_r, Z.ltb_lt.
  - rewrite rowsOf_cons. destruct (rowsOf_head next rest) as (row & rows & E).
    assert (Hhead : match prev with
                    | Some ly => 5 <? Z.abs (TextItem.transform5 item - ly)
                    | None => true
                    end = true)
      by (destruct prev; [now apply Z.ltb_lt | reflexivity]).
    destruct (Z.abs (TextItem.transform5 next - TextItem.transform5 item) <=? 5) eqn:Hc.
    + pose proof (IH None I) as Hrest. rewrite E in *.
      rewrite separatedRows_cons in Hrest. rewrite separatedRows_cons.
      cbn [closeFrom lastYFrom]. rewrite Hhead, Hc. exact Hrest.
    + apply Z.leb_gt in Hc.
      pose proof (IH (Some (TextItem.transform5 item)) Hc) as Hrest. rewrite E in *.
      rewrite separatedRows_cons. cbn [closeFrom lastYFrom].
      now rewrite Hhead, Hrest.
Qed.

Section GrouperRows.
Context {chalk : Chalk}.

Lemma groupLines_rows (links : list Link.t) (items : list TextItem.t) :
  groupLines links items =
  map (map (makeToken links)) (rowsOf (List.filter nonBlank items)).
Proof.
  set (kept := List.filter nonBlank items).
  unfold groupLines. rewrite fold_group_filter. fold kept.
  rewrite <- (rowsOf_concat kept) at 1 2.
  pose proof (fold_group_rows links (rowsOf kept) [] [] None) as H. simpl in H.
  apply H.
  - rewrite rowsOf_concat. apply forallb_forall. intros item Hin.
    now apply filter_In in Hin.
  - apply rowsOf_separated. now destruct kept.
Qed.

(** X2. Whatever the fragments, the lines of the grouper are the kept
    (non-blank) fragments cut into rows exactly where the y of a fragment
    is more than 5 units away from the fragment before: no fragment is
    lost, repeated or moved, and there are at most as many lines as kept
    fragments. *)
Theorem grouper_cuts_rows_at_jumps (links : list Link.t) (items : list TextItem.t) :
  let kept := List.filter nonBlank items in
  groupLines links items = map (map (makeToken links)) (rowsOf kept)
  /\ concat (rowsOf kept) = kept
  /\ separatedRows None (rowsOf kept) = true
  /\ concat (groupLines links items) = map (makeToken links) kept
  /\ (length (groupLines links items) <= length kept)%nat.
Proof.
  intros kept.
  assert (Hsep : separatedRows None (rowsOf kept) = true)
    by (apply rowsOf_separated; now destruct kept).
  assert (E : groupLines links items = map (map (makeToken links)) (rowsOf kept))
    by apply groupLines_rows.
  split; [exact E |]. split; [apply rowsOf_concat |]. split; [exact Hsep |].
  split.
  - now rewrite E, <- concat_map, rowsOf_concat.
  - rewrite E, length_map. apply rowsOf_length.
Qed.

End GrouperRows.

(** ** The sort of the formatter (line 59) *)

Lemma atX_In (v : Z) (t : Token.t) (l : Line) :
  In t (atX v l) <-> In t l /\ Token.x t = v.
Proof. unfold atX. rewrite filter_In, Z.eqb_eq. tauto. Qed.

Lemma atX_head (t : Token.t) (l : Line) :
  atX (Token.x t) (t :: l) = t :: atX (Token.x t) l.
Proof. unfold atX. simpl. now rewrite Z.eqb_refl. Qed.

Lemma atX_skip (v : Z) (t : Token.t) (l : Line) :
  Token.x t <> v -> atX v (t :: l) = atX v l.
Proof.
  intros H. unfold atX. simpl.
  now replace (Token.x t =? v) with false by (symmetry; now apply Z.eqb_neq).
Qed.

Lemma atX_all_nil (l : Line) : (forall v, atX v l = []) -> l = [].
Proof.
  destruct l as [|t l]; [reflexivity |]. intros H.
  specialize (H (Token.x t)). rewrite atX_head in H. discriminate.
Qed.

(** Two ascending arrangements in which the tokens of every abscissa come
    in the same order are the same arrangement. *)
Lemma sorted_stable_unique (a : Line) : forall b,
  StronglySorted leX a -> StronglySorted leX b ->
  (forall v, atX v a = atX v b) -> a = b.
Proof.
  induction a as [|t a IH]; intros b Ha Hb H.
  - symmetry. apply atX_all_nil. intros v. now rewrite <- H.
  - destruct b as [|u b].
    { specialize (H (Token.x t)). rewrite atX_head in H. discriminate. }
    apply StronglySorted_inv in Ha as [Ha Hta].
    apply StronglySorted_inv in Hb as [Hb Hub].
    assert (Hut : Token.x u <= Token.x t).
    { assert (Hin : In t (u :: b)).
      { apply (atX_In (Token.x t)). rewrite <- H, atX_head. now left. }
      destruct Hin as [E | Hin]; [rewrite E; lia |].
      rewrite Forall_forall in Hub. apply Hub. now apply list_elem_of_In. }
    assert (Htu : Token.x t <= Token.x u).
    { assert (Hin : In u (t :: a)).
      { apply (atX_In (Token.x u)). rewrite H, atX_head. now left. }
      destruct Hin as [E | Hin]; [rewrite E; lia |].
      rewrite Forall_forall in Hta. apply Hta. now apply list_elem_of_In. }
    assert (Hx : Token.x u = Token.x t) by lia.
    pose proof (H (Token.x t)) as Hv.
    rewrite atX_head, <- Hx, atX_head in Hv. injection Hv as Etu Hv. subst u.
    f_equal. apply IH; [exact Ha | exact Hb |].
    intros v. destruct (decide (Token.x t = v)) as [<- | Hne].
    + exact Hv.
    + specialize (H v). now rewrite !atX_skip in H by congruence.
Qed.

(** X3. The result of the sort is determined by what the language
    promises about it: the only arrangement that is ascending in x and
    keeps the tokens of equal x in their order of discovery is the one the
    formatter stores. *)
Theorem stable_sort_is_unique (lineItems sorted : Line) :
  StronglySorted leX sorted ->
  (forall v, atX v sorted = atX v lineItems) ->
  sorted = sortByX lineItems.
Proof.
  intros Hs Hst. apply sorted_stable_unique; [exact Hs | apply sortByX_sorted |].
  intros v. now rewrite sortByX_atX.
Qed.

Lemma filter_perm {A : Type} (f : A -> bool) (l l' : list A) :
  Permutation l l' -> Permutation (List.filter f l) (List.filter f l').
Proof.
  induction 1 as [|a l l' _ IH|a b l|l l' l'' _ IH1 _ IH2]; simpl.
  - constructor.
  - destruct (f a); [now constructor | exact IH].
  - destruct (f a), (f b); try reflexivity. apply perm_swap.
  - now transitivity (List.filter f l').
Qed.

Lemma atX_short (v : Z) (l : Line) :
  NoDup (map Token.x l) -> (length (atX v l) <= 1)%nat.
Proof.
  induction l as [|t l IH]; intros Hnd; [simpl; lia |].
  cbn [map] in Hnd. apply NoDup_cons in Hnd as [Hnotin Hnd].
  destruct (decide (Token.x t = v)) as [<- | Hne].
  - rewrite atX_head. destruct (atX (Token.x t) l) as [|u rest] eqn:E; [simpl; lia |].
    exfalso. apply Hnotin. apply list_elem_of_In, in_map_iff. exists u.
    assert (Hin : In u (atX (Token.x t) l)) by (rewrite E; now left).
    apply atX_In in Hin. tauto.
  - rewrite atX_skip by exact Hne. now apply IH.
Qed.

Lemma sortByX_perm_distinct (l l' : Line) :
  Permutation l l' -> NoDup (map Token.x l) -> sortByX l = sortByX l'.
Proof.
  intros Hp Hnd. apply sorted_stable_unique; try apply sortByX_sorted.
  intros v. rewrite !sortByX_atX.
  pose proof (filter_perm (fun t => Token.x t =? v) l l' Hp) as Hf. fold (atX v l) in Hf.
  fold (atX v l') in Hf. pose proof (atX_short v l Hnd) as Hshort.
  pose proof (Permutation_length Hf) as Hlen.
  destruct (atX v l) as [|a [|? ?]], (atX v l') as [|b [|? ?]];
    simpl in *; try lia; try reflexivity.
  apply Permutation_length_1 in Hf. now subst.
Qed.

Lemma trimEnd_idem (s : string) : trimEnd (trimEnd s) = trimEnd s.
Proof.
  induction s as [|c s IH]; [reflexivity |]. cbn [trimEnd].
  destruct (isWhiteSpace c && isEmpty (trimEnd s)) eqn:E; [reflexivity |].
  cbn [trimEnd]. now rewrite IH, E.
Qed.

Lemma trim_idem (s : string) : trim (trim s) = trim s.
Proof.
  destruct (trim_head s) as [E | (c & r & E & Hc)]; rewrite E; [reflexivity |].
  rewrite trim_cons by exact Hc. f_equal.
  unfold trim in E. destruct (trimStart_head s) as [E' | (c' & r' & E' & Hc')];
    rewrite E' in E; [discriminate |].
  rewrite trimEnd_cons in E by exact Hc'. injection E as _ <-. apply trimEnd_idem.
Qed.

Section FormatterMore.
Context {chalk : Chalk}.

(** X4. When no two tokens of a line share their x, the formatter does
    not depend on the order in which the tokens were discovered: two
    lines with the same tokens give the same text and leave the same
    stored array. *)
Theorem formatting_ignores_discovery_order (l l' : Line) :
  Permutation l l' -> NoDup (map Token.x l) ->
  formatLineWithSpacing l = formatLineWithSpacing l'.
Proof.
  intros Hp Hnd. rewrite !formatLineWithSpacing_eq.
  now rewrite (sortByX_perm_distinct l l' Hp Hnd).
Qed.

Lemma trim_separator (gap : Z) (s : string) : trim (separator gap +:+ s) = trim s.
Proof. unfold separator. destruct (10 <? gap); [| destruct (5 <? gap)]; reflexivity. Qed.

Lemma len_nonneg (s : string) : 0 <= len s.
Proof. unfold len. lia. Qed.

(** X6. The width that the formatter assumes for a linked token is 5
    times the length of its display string, which holds 12 escape
    characters and the url besides the text: a token that starts within
    that width after a linked token (coordinates from 0 up and below
    2^53, where the arithmetic is exact) is appended without any
    separator. *)
Theorem linked_token_swallows_separator (t1 t2 : Token.t) (text url : string) :
  Token.str t1 = makeHyperlink text url ->
  0 <= Token.x t1 ->
  Token.x t1 <= Token.x t2 ->
  Token.x t2 <= Token.x t1 + 5 * (len text + len url + 12) ->
  Token.x t1 + 5 * (len text + len url + 12) < 2 ^ 53 ->
  formattedOf [t1; t2] = trim (styledText t1 +:+ styledText t2).
Proof.
  intros Hstr Hpos Hord Hgap Hbound. unfold formattedOf.
  rewrite formatLineWithSpacing_eq. cbn [fst sortByX insertByX].
  replace (Token.x t2 <? Token.x t1) with false by (symmetry; now apply Z.ltb_ge).
  cbn [formatWalk]. rewrite trim_separator, Hstr, len_makeHyperlink.
  pose proof (len_nonneg text) as Ht. pose proof (len_nonneg url) as Hu.
  change (2 ^ 53) with 9007199254740992 in Hbound.
  unfold JsNumber.mul, JsNumber.add, JsNumber.sub.
  rewrite (round64_exact ((len text + len url + 12) * 5))
    by (change (2 ^ 53) with 9007199254740992; lia).
  rewrite (round64_exact (Token.x t1 + (len text + len url + 12) * 5))
    by (change (2 ^ 53) with 9007199254740992; lia).
  rewrite round64_exact by (change (2 ^ 53) with 9007199254740992; lia).
  unfold separator at 1.
  replace (10 <? Token.x t2 - (Token.x t1 + (len text + len url + 12) * 5))
    with false by (symmetry; apply Z.ltb_ge; lia).
  replace (5 <? Token.x t2 - (Token.x t1 + (len text + len url + 12) * 5))
    with false by (symmetry; apply Z.ltb_ge; lia).
  now rewrite append_nil_r.
Qed.

(** X7. A formatted text and a raw line text are already trimmed, so the
    two [trim] calls of the education branch change nothing: an education
    entry is the bold first text, a line feed, the muted tab-indented
    second text and a line feed. *)
Theorem education_entry_of_formatted_lines (a b : Line) :
  trim (formattedOf a) = formattedOf a
  /\ trim (rawLineOf a) = rawLineOf a
  /\ educationEntry (formattedOf a) (formattedOf b) =
       bold (formattedOf a) +:+ LF +:+ gray (TAB +:+ formattedOf b) +:+ LF.
Proof.
  assert (H : forall l, trim (formattedOf l) = formattedOf l).
  { intros l. unfold formattedOf. rewrite formatLineWithSpacing_eq. apply trim_idem. }
  split; [apply H |]. split; [apply trim_idem |].
  unfold educationEntry. now rewrite !H.
Qed.

End FormatterMore.

(** ** The skill highlight (lines 46-56) *)

Lemma replaceFirst_eq (s key repl : string) :
  replaceFirst s key repl =
  if startsWith s key then repl +:+ dropn (String.length key) s
  else match s with
       | EmptyString => EmptyString
       | String c r => String c (replaceFirst r key repl)
       end.
Proof. destruct s; reflexivity. Qed.

Lemma includes_eq (s p : string) :
  includes s p =
  startsWith s p
  || match s with EmptyString => false | String _ r => includes r p end.
Proof. destruct s; reflexivity. Qed.

Lemma dropn_append (key post : string) :
  dropn (String.length key) (key +:+ post) = post.
Proof. induction key as [|c key IH]; simpl; [reflexivity | exact IH]. Qed.

Lemma replaceFirst_absent (s key repl : string) :
  includes s key = false -> replaceFirst s key repl = s.
Proof.
  induction s as [|c s IH]; rewrite includes_eq, replaceFirst_eq; intros H;
    apply orb_false_iff in H as [H1 H2]; rewrite H1; [reflexivity |].
  now rewrite IH.
Qed.

(** [replace] with a string pattern rewrites the leftmost occurrence. *)
Lemma replaceFirst_present (s key repl : string) :
  includes s key = true ->
  exists pre post,
    s = pre +:+ key +:+ post
    /\ replaceFirst s key repl = pre +:+ repl +:+ post
    /\ forall pre' post', s = pre' +:+ key +:+ post' ->
         (String.length pre <= String.length pre')%nat.
Proof.
  induction s as [|c s IH]; rewrite includes_eq, replaceFirst_eq; intros H.
  - rewrite orb_false_r in H. rewrite H.
    apply startsWith_spec in H as [post H].
    destruct key as [|k key]; [| discriminate H]. simpl in H. subst post.
    exists EmptyString, EmptyString. split; [reflexivity |]. split.
    + reflexivity.
    + intros; simpl; lia.
  - destruct (startsWith (String c s) key) eqn:Hs.
    + apply startsWith_spec in Hs as [post Hs].
      exists EmptyString, post. split; [exact Hs |]. split.
      * rewrite Hs. now rewrite dropn_append.
      * intros; simpl; lia.
    + simpl in H. destruct (IH H) as (pre & post & E & Hr & Hmin).
      exists (String c pre), post. split; [simpl; now rewrite <- E |].
      split; [simpl; now rewrite Hr |].
      intros [|c' pre'] post' E'.
      * assert (Hs' : startsWith (String c s) key = true)
          by (apply startsWith_spec; now exists post').
        congruence.
      * simpl in E'. injection E' as _ E'. simpl.
        specialize (Hmin pre' post' E'). lia.
Qed.

Lemma skillCategory_label (key : string) :
  In key skillCategories -> key = replaceFirst key ":" EmptyString +:+ ":".
Proof. intros [<-|[<-|[<-|[<-|[<-|[<-|[]]]]]]]; reflexivity. Qed.

Section SkillHighlight.
Context {chalk : Chalk}.

Lemma highlightSkillKeyIn_find (keys : list string) (line : string) :
  highlightSkillKeyIn keys line =
  match List.find (fun key => includes line key) keys with
  | Some key =>
      replaceFirst line key
        (magenta_bold (replaceFirst key ":" EmptyString) +:+ white ":")
  | None => line
  end.
Proof.
  induction keys as [|key keys IH]; simpl; [reflexivity |].
  now destruct (includes line key).
Qed.

(** X8. The skill highlight restyles at most one label: with no category
    label in the line the line is returned as it is; otherwise the
    leftmost occurrence of the first category (in the order of the list)
    that the line holds is replaced by its label without the colon, bold
    magenta, followed by a white colon, and the text before and after it
    is kept. *)
Theorem skill_key_highlighted_once (line : string) :
  match firstCategory line with
  | None => highlightSkillKey line = line
  | Some key =>
      In key skillCategories
      /\ exists label pre post,
           key = label +:+ ":"
           /\ line = pre +:+ key +:+ post
           /\ (forall pre' post', line = pre' +:+ key +:+ post' ->
                 (String.length pre <= String.length pre')%nat)
           /\ highlightSkillKey line =
                pre +:+ (magenta_bold label +:+ white ":") +:+ post
  end
  /\ (firstCategory line = None <->
      forall key, In key skillCategories -> ~ hasSubstring line key).
Proof.
  split.
  - unfold highlightSkillKey. rewrite highlightSkillKeyIn_find. fold (firstCategory line).
    destruct (firstCategory line) as [key|] eqn:E; [| reflexivity].
    unfold firstCategory in E. apply find_some in E as [Hin Hinc].
    split; [exact Hin |].
    destruct (replaceFirst_present line key
                (magenta_bold (replaceFirst key ":" EmptyString) +:+ white ":") Hinc)
      as (pre & post & Eline & Hrep & Hmin).
    exists (replaceFirst key ":" EmptyString), pre, post.
    split; [now apply skillCategory_label |]. auto.
  - unfold firstCategory. rewrite find_none_iff, Forall_forall. split.
    + intros H key Hin Hsub. apply includes_spec in Hsub.
      rewrite (H key) in Hsub; [discriminate | now apply list_elem_of_In].
    + intros H key Hin. destruct (includes line key) eqn:E; [| reflexivity].
      exfalso. apply (H key); [now apply list_elem_of_In | now apply includes_spec].
Qed.

End SkillHighlight.

(** ** More on the loop over the lines (lines 136-222) *)

Section ClassifierMore.
Context {chalk : Chalk}.
Implicit Types (lines : list Line) (c : Classifier.state).

Lemma outcome_roles lines i c l :
  In (snd (lineOutcome lines i c l))
     (Skipped :: SectionHeader :: sectionRoles (currentSection c)).
Proof.
  unfold lineOutcome, classifyLine, currentSection.
  destruct (isEmpty (rawLineOf l)); [now left |].
  destruct (isSectionHeader _); [right; now left |].
  destruct (Classifier.inEducation c).
  { destruct (Classifier.eduBuffer c ++ [formattedOf l]) as [|? [|? [|? ?]]];
      simpl; tauto. }
  destruct (Classifier.inExperience c).
  { destruct (isBold _ && _ && _); simpl; tauto. }
  destruct (Classifier.inProjects c); cbn [andb negb];
    branches ltac:(simpl; tauto).
Qed.

(** X9. The branch that handles a line is one of the branches of the
    current section: an education line is only ever buffered, an
    experience line is a title or a plain line, the skill highlight
    applies outside every section only, and the title, link and
    tech-stack rules apply in the projects section only. *)
Theorem roles_follow_section lines (k : nat) (role : Role) :
  Run.roles (classifyLines lines) !! k = Some role ->
  In role (Skipped :: SectionHeader
           :: sectionRoles (currentSection (Run.vars (runTo lines k)))).
Proof.
  intros H. apply run_roles_final in H as (l & _ & ->). apply outcome_roles.
Qed.

Lemma outcome_last lines i c l :
  Classifier.lastProjectIndex (fst (fst (lineOutcome lines i c l))) =
  if decide (snd (lineOutcome lines i c l) = ProjectTitle)
  then Z.of_nat i else Classifier.lastProjectIndex c.
Proof.
  unfold lineOutcome, classifyLine.
  destruct (isEmpty (rawLineOf l)); [reflexivity |].
  destruct (isSectionHeader _); [reflexivity |].
  destruct (Classifier.inEducation c).
  { now destruct (Classifier.eduBuffer c ++ [formattedOf l]) as [|? [|? [|? ?]]]. }
  destruct (Classifier.inExperience c).
  { now destruct (isBold _ && _ && _). }
  branches ltac:(reflexivity).
Qed.

Lemma outcome_title_body lines i c l :
  snd (lineOutcome lines i c l) = ProjectTitle -> bodyLine l = true.
Proof.
  unfold lineOutcome, classifyLine, bodyLine.
  destruct (isEmpty (rawLineOf l)); [discriminate |].
  destruct (isSectionHeader _); [discriminate | reflexivity].
Qed.

Lemma outcome_title_fwd lines i c l :
  currentSection c = Projects -> bodyLine l = true ->
  isProjectTitle (rawLineOf l) = true ->
  1 < Z.of_nat i - Classifier.lastProjectIndex c ->
  snd (lineOutcome lines i c l) = ProjectTitle.
Proof.
  intros Hsec Hbody Htitle Hidx.
  apply currentSection_projects in Hsec as (Hedu & Hexp & Hproj).
  apply bodyLine_spec in Hbody as [H1 H2].
  unfold lineOutcome, classifyLine. rewrite H1, H2, Hedu, Hexp, Hproj, Htitle.
  now replace (1 <? Z.of_nat i - Classifier.lastProjectIndex c) with true
    by (symmetry; now apply Z.ltb_lt).
Qed.

(** [lastProjectIndex] is the index of the last line styled as a title,
    or -2 when there is none yet. *)
Lemma run_last_title lines k :
  (k <= length lines)%nat ->
  (Classifier.lastProjectIndex (Run.vars (runTo lines k)) = -2
   \/ (0 <= Classifier.lastProjectIndex (Run.vars (runTo lines k)) < Z.of_nat k
       /\ Run.roles (runTo lines k)
            !! Z.to_nat (Classifier.lastProjectIndex (Run.vars (runTo lines k)))
          = Some ProjectTitle))
  /\ (forall j, Run.roles (runTo lines k) !! j = Some ProjectTitle ->
        Z.of_nat j <= Classifier.lastProjectIndex (Run.vars (runTo lines k))).
Proof.
  induction k as [|k IH]; intros Hk.
  - split; [now left | intros j H; discriminate].
  - destruct IH as [IH1 IH2]; [lia |].
    destruct (lookup_lt_is_Some_2 lines k) as [l Hl]; [lia |].
    pose proof (run_roles_length lines k ltac:(lia)) as Hlen.
    rewrite (run_vars_S _ _ _ Hl), (run_roles_S _ _ _ Hl), outcome_last.
    destruct (decide (snd (lineOutcome lines k (Run.vars (runTo lines k)) l)
                      = ProjectTitle)) as [Et | Hnt].
    + split.
      * right. split; [lia |]. rewrite Nat2Z.id.
        rewrite lookup_app_r by lia. rewrite Hlen, Nat.sub_diag. simpl. now rewrite Et.
      * intros j Hj. apply lookup_lt_Some in Hj. rewrite length_app in Hj.
        simpl in Hj. lia.
    + split.
      * destruct IH1 as [E | [Hrange Hrole]]; [now left | right].
        split; [lia |]. now apply lookup_app_l_Some.
      * intros j Hj. destruct (decide (j < k)%nat) as [Hlt | Hge].
        -- apply IH2. now rewrite lookup_app_l in Hj by lia.
        -- pose proof (lookup_lt_Some _ _ _ Hj) as Hb. rewrite length_app in Hb.
           simpl in Hb. assert (j = k) by lia. subst j.
           rewrite lookup_app_r in Hj by lia. rewrite Hlen, Nat.sub_diag in Hj.
           simpl in Hj. congruence.
Qed.

Lemma run_roles_stable lines j k :
  (j < k)%nat -> (k <= length lines)%nat ->
  Run.roles (classifyLines lines) !! j = Run.roles (runTo lines k) !! j.
Proof.
  intros Hjk Hk. destruct (lookup_lt_is_Some_2 lines j) as [l Hl]; [lia |].
  unfold classifyLines.
  rewrite (run_roles_lookup lines (length lines) j l) by (try lia; exact Hl).
  now rewrite (run_roles_lookup lines k j l) by (try lia; exact Hl).
Qed.

(** The guard of line 184 in terms of the line before. *)
Lemma title_guard_iff lines k :
  (k < length lines)%nat ->
  1 < Z.of_nat k - Classifier.lastProjectIndex (Run.vars (runTo lines k)) <->
  k = 0%nat \/ Run.roles (classifyLines lines) !! (k - 1)%nat <> Some ProjectTitle.
Proof.
  intros Hk. destruct (run_last_title lines k ltac:(lia)) as [H1 H2].
  destruct k as [|k]; [split; [now left | intros _; destruct H1 as [-> | [? _]]; lia] |].
  replace (S k - 1)%nat with k by lia.
  rewrite (run_roles_stable lines k (S k)) by lia. split.
  - intros Hg. right. intros Hr. apply H2 in Hr. lia.
  - intros [? | Hr]; [lia |]. destruct H1 as [-> | [Hrange Hrole]]; [lia |].
    destruct (decide (Classifier.lastProjectIndex (Run.vars (runTo lines (S k)))
                      = Z.of_nat k)) as [E | Hne]; [| lia].
    rewrite E, Nat2Z.id in Hrole. contradiction.
Qed.

(** X10. A line is styled as a project title exactly when the projects
    section decides, the line is neither empty nor a header, its raw text
    is title-shaped, and it is the first line of the page or the line
    before it was not styled as a project title. *)
Theorem project_title_iff lines (k : nat) (l : Line) :
  lines !! k = Some l ->
  Run.roles (classifyLines lines) !! k = Some ProjectTitle <->
  currentSection (Run.vars (runTo lines k)) = Projects
  /\ bodyLine l = true
  /\ isProjectTitle (rawLineOf l) = true
  /\ (k = 0%nat \/ Run.roles (classifyLines lines) !! (k - 1)%nat <> Some ProjectTitle).
Proof.
  intros Hl. pose proof (lookup_lt_Some _ _ _ Hl) as Hk.
  rewrite <- (title_guard_iff lines k Hk). rewrite run_roles_final. split.
  - intros (l0 & Hl0 & Hrole). assert (l0 = l) by congruence. subst l0.
    symmetry in Hrole. pose proof (outcome_title_body _ _ _ _ Hrole) as Hbody.
    apply outcome_title_inv in Hrole as (_ & _ & Hsec & Htitle & Hidx). auto.
  - intros (Hsec & Hbody & Htitle & Hidx). exists l. split; [exact Hl |].
    symmetry. now apply outcome_title_fwd.
Qed.

Lemma outcome_default_inv lines i c l :
  snd (lineOutcome lines i c l) = DefaultLine ->
  fst (fst (lineOutcome lines i c l)) = c
  /\ snd (fst (lineOutcome lines i c l)) =
       formattedOf l
       :: (if Classifier.inProjects c then separatorBeforeTitle lines i else []).
Proof.
  unfold lineOutcome, classifyLine.
  destruct (isEmpty (rawLineOf l)); [discriminate |].
  destruct (isSectionHeader _); [discriminate |].
  destruct (Classifier.inEducation c).
  { now destruct (Classifier.eduBuffer c ++ [formattedOf l]) as [|? [|? [|? ?]]]. }
  destruct (Classifier.inExperience c).
  { now destruct (isBold _ && _ && _). }
  destruct (Classifier.inProjects c); cbn [andb negb];
    branches ltac:(discriminate); auto.
Qed.

(** X11. In the projects section a line printed by the default rule and
    followed by a title-shaped line that is not a header prints its text
    and a blank line, and the next line is then styled as a title after a
    blank line of its own: the title is preceded by two blank lines. *)
Theorem title_after_text_gets_two_blank_lines lines (k : nat) (l l' : Line) :
  lines !! k = Some l ->
  lines !! S k = Some l' ->
  Run.roles (classifyLines lines) !! k = Some DefaultLine ->
  currentSection (Run.vars (runTo lines k)) = Projects ->
  isProjectTitle (rawLineOf l') = true ->
  isSectionHeader (rawLineOf l') = false ->
  Run.roles (classifyLines lines) !! S k = Some ProjectTitle
  /\ Run.log (runTo lines (S (S k))) =
       Run.log (runTo lines k)
       ++ [formattedOf l; EmptyString; EmptyString;
           cyan_bold_underline (formattedOf l')].
Proof.
  intros Hl Hl' Hrole Hsec Htitle Hhead.
  apply run_roles_final in Hrole as (l0 & Hl0 & Hrole).
  assert (l0 = l) by congruence. subst l0. symmetry in Hrole.
  apply outcome_default_inv in Hrole as [Hvars Hout].
  pose proof (currentSection_projects _ Hsec) as (_ & _ & Hproj).
  rewrite Hproj in Hout. unfold separatorBeforeTitle in Hout.
  rewrite Hl', Htitle in Hout.
  assert (Hbody : bodyLine l' = true).
  { apply bodyLine_spec. split; [now apply isProjectTitle_nonempty | exact Hhead]. }
  assert (Hguard : 1 < Z.of_nat (S k)
                       - Classifier.lastProjectIndex (Run.vars (runTo lines (S k)))).
  { rewrite (run_vars_S _ _ _ Hl), Hvars.
    destruct (run_last_title lines k) as [[E | [Hrange _]] _];
      [apply lookup_lt_Some in Hl; lia | rewrite E; lia | lia]. }
  assert (Hsec' : currentSection (Run.vars (runTo lines (S k))) = Projects)
    by now rewrite (run_vars_S _ _ _ Hl), Hvars.
  pose proof (outcome_title_fwd lines (S k) _ l' Hsec' Hbody Htitle Hguard) as Hr.
  split.
  - apply run_roles_final. exists l'. split; [exact Hl' | now rewrite Hr].
  - apply outcome_title_inv in Hr as (_ & Hout' & _).
    rewrite (run_log_S _ _ _ Hl'), Hout', (run_log_S _ _ _ Hl), Hout.
    now rewrite <- app_assoc.
Qed.

(** *** Links and classification *)

Lemma sameButStr_raw (l l' : Line) :
  Forall2 sameButStr l l' -> map Token.raw l = map Token.raw l'.
Proof.
  induction 1 as [|a b l l' (Hraw & _) _ IH]; simpl; [reflexivity |].
  now rewrite Hraw, IH.
Qed.

Lemma insertByX_same (a a' : Token.t) (l l' : Line) :
  sameButStr a a' -> Forall2 sameButStr l l' ->
  Forall2 sameButStr (insertByX a l) (insertByX a' l').
Proof.
  intros Ha. induction 1 as [|b b' l l' Hb Hl IH]; simpl.
  - constructor; [exact Ha | constructor].
  - pose proof Ha as (_ & Hx & _). pose proof Hb as (_ & Hx' & _).
    rewrite <- Hx, <- Hx'. destruct (Token.x b <? Token.x a).
    + constructor; [exact Hb | exact IH].
    + constructor; [exact Ha |]. constructor; [exact Hb | exact Hl].
Qed.

Lemma sortByX_same (l l' : Line) :
  Forall2 sameButStr l l' -> Forall2 sameButStr (sortByX l) (sortByX l').
Proof.
  induction 1 as [|a a' l l' Ha Hl IH]; simpl; [constructor |].
  now apply insertByX_same.
Qed.

Lemma firstFontName_same (l l' : Line) :
  Forall2 sameButStr l l' -> firstFontName l = firstFontName l'.
Proof. intros [|a a' ? ? (_ & _ & Hf) _]; [reflexivity | exact Hf]. Qed.

Lemma outcome_same lines lines' i c c' l l' :
  Forall2 sameButStr l l' -> sameControl c c' ->
  snd (lineOutcome lines i c l) = snd (lineOutcome lines' i c' l')
  /\ sameControl (fst (fst (lineOutcome lines i c l)))
       (fst (fst (lineOutcome lines' i c' l'))).
Proof.
  intros Hl [Hflags Hlast].
  pose proof (sortByX_same _ _ Hl) as Hs.
  pose proof (firstFontName_same _ _ Hs) as Hfont.
  pose proof (Forall2_length _ _ _ Hs) as Hlen.
  assert (Hraw : rawLineOf l = rawLineOf l')
    by (unfold rawLineOf; now rewrite (sameButStr_raw _ _ Hl)).
  destruct c as [p e d last buf], c' as [p' e' d' last' buf'].
  unfold flags in Hflags. simpl in Hflags, Hlast. injection Hflags as -> -> ->.
  subst last'. unfold lineOutcome, classifyLine, sameControl, flags.
  rewrite <- Hraw, <- Hfont, <- Hlen.
  cbn [Classifier.inProjects Classifier.inExperience Classifier.inEducation
       Classifier.lastProjectIndex Classifier.eduBuffer].
  destruct (isEmpty (rawLineOf l)); [now split |].
  destruct (isSectionHeader _); [now split |].
  destruct d'.
  { now destruct (buf ++ [formattedOf l]) as [|? [|? [|? ?]]],
      (buf' ++ [formattedOf l']) as [|? [|? [|? ?]]]. }
  destruct e'.
  { now destruct (isBold _ && _ && _). }
  destruct p'; cbn [andb negb]; branches ltac:(now split).
Qed.

Lemma run_same lines lines' :
  samePlainLines lines lines' -> forall k,
  Run.roles (runTo lines k) = Run.roles (runTo lines' k)
  /\ sameControl (Run.vars (runTo lines k)) (Run.vars (runTo lines' k)).
Proof.
  intros Hsame k. induction k as [|k [IHr IHc]]; [now repeat split |].
  destruct (lines !! k) as [l|] eqn:Hl.
  - destruct (Forall2_lookup_l _ _ _ _ _ Hsame Hl) as (l' & Hl' & Hll).
    rewrite (run_roles_S _ _ _ Hl), (run_roles_S _ _ _ Hl').
    rewrite (run_vars_S _ _ _ Hl), (run_vars_S _ _ _ Hl').
    destruct (outcome_same lines lines' k _ _ l l' Hll IHc) as [Er Ec].
    split; [now rewrite IHr, Er | exact Ec].
  - assert (Hl' : lines' !! k = None).
    { apply lookup_ge_None. apply lookup_ge_None in Hl.
      unfold samePlainLines in Hsame. apply Forall2_length in Hsame.
      unfold Line in *. lia. }
    rewrite !run_past_end by assumption. now split.
Qed.

Lemma makeToken_rows_same (links links' : list Link.t)
    (rows : list (list TextItem.t)) :
  samePlainLines (map (map (makeToken links)) rows)
    (map (map (makeToken links')) rows).
Proof.
  unfold samePlainLines. induction rows as [|row rows IH]; simpl; constructor.
  - induction row as [|item row IHrow]; simpl; constructor; [| exact IHrow].
    now repeat split.
  - exact IH.
Qed.

(** X12. The link annotations of a page never change how its lines are
    classified: with any two lists of links the grouper builds the same
    lines up to the display text of the tokens, and the classifier takes
    the same branch on every line and ends with the same section flags
    and the same title index. *)
Theorem classification_ignores_links (links links' : list Link.t)
    (items : list TextItem.t) :
  map (map Token.raw) (groupLines links items)
    = map (map Token.raw) (groupLines links' items)
  /\ Run.roles (classifyLines (groupLines links items))
     = Run.roles (classifyLines (groupLines links' items))
  /\ sameControl (Run.vars (classifyLines (groupLines links items)))
       (Run.vars (classifyLines (groupLines links' items))).
Proof.
  rewrite !groupLines_rows.
  pose proof (makeToken_rows_same links links' (rowsOf (List.filter nonBlank items)))
    as Hsame.
  split.
  - induction Hsame as [|l l' ls ls' Hl _ IH]; simpl; [reflexivity |].
    now rewrite (sameButStr_raw _ _ Hl), IH.
  - unfold classifyLines. rewrite !length_map. now apply run_same.
Qed.

Lemma run_log_extends lines j k :
  (j <= k)%nat -> exists more, Run.log (runTo lines k) = Run.log (runTo lines j) ++ more.
Proof.
  induction 1 as [|k _ [more IH]]; [exists []; now rewrite app_nil_r |].
  destruct (lines !! k) as [l|] eqn:Hl.
  - rewrite (run_log_S _ _ _ Hl), IH. eexists. now rewrite <- app_assoc.
  - rewrite run_past_end by exact Hl. now exists more.
Qed.

Lemma outcome_initial_prints lines l :
  isEmpty (rawLineOf l) = false ->
  snd (fst (lineOutcome lines 0 initVars l)) <> [].
Proof.
  intros H. unfold lineOutcome, classifyLine. rewrite H. cbn [initVars
    Classifier.inEducation Classifier.inExperience Classifier.inProjects andb negb].
  branches ltac:(discriminate).
Qed.

(** X13. A page prints nothing exactly when all its fragments are blank:
    the grouper then finds no line, the log of the page is empty and its
    classifier variables end as they started; a page with a non-blank
    fragment always prints its first line. *)
Theorem blank_page_prints_nothing (page : Page.t) :
  (pageLines page = [] <-> List.filter nonBlank (Page.items page) = [])
  /\ (pageLog page = [] <-> List.filter nonBlank (Page.items page) = [])
  /\ (List.filter nonBlank (Page.items page) = [] -> pageEnd page = initVars).
Proof.
  assert (Hlines : pageLines page = [] <-> List.filter nonBlank (Page.items page) = []).
  { unfold pageLines. rewrite groupLines_rows.
    destruct (List.filter nonBlank (Page.items page)) as [|item rest] eqn:E.
    - now split.
    - destruct (rowsOf_head item rest) as (row & rows & ->). now split. }
  split; [exact Hlines |]. rewrite <- Hlines. split.
  - split.
    + unfold pageLog. intros Hlog.
      destruct (pageLines page) as [|l ls] eqn:E; [reflexivity |]. exfalso.
      pose proof (groupLines_good (pageLinks (Page.annotations page))
                    (Page.items page)) as Hgood.
      fold (pageLines page) in Hgood. rewrite E in Hgood.
      apply Forall_cons in Hgood as [Hl _]. apply goodLine_rawLine in Hl.
      destruct (run_log_extends (l :: ls) 1 (length (l :: ls))) as [more Hmore];
        [simpl; lia |].
      unfold classifyLines in Hlog. rewrite Hmore in Hlog.
      rewrite (run_log_S (l :: ls) 0 l eq_refl) in Hlog.
      apply app_eq_nil in Hlog as [Hlog _]. cbn [runTo seq fold_left runStart
        Run.log Run.vars app] in Hlog.
      now apply (outcome_initial_prints (l :: ls) l Hl).
    + unfold pageLog. now intros ->.
  - unfold pageEnd. now intros ->.
Qed.

End ClassifierMore.

Section SkillLines.
Context {chalk : Chalk}.

Lemma outcome_skill_inv (lines : list Line) (i : nat) (c : Classifier.state) (l : Line) :
  snd (lineOutcome lines i c l) = SkillLine ->
  fst (fst (lineOutcome lines i c l)) = c
  /\ snd (fst (lineOutcome lines i c l)) = [highlightSkillKey (formattedOf l)]
  /\ existsb (fun key => includes (rawLineOf l) key) skillCategories = true.
Proof.
  unfold lineOutcome, classifyLine.
  destruct (isEmpty (rawLineOf l)); [discriminate |].
  destruct (isSectionHeader _); [discriminate |].
  destruct (Classifier.inEducation c).
  { now destruct (Classifier.eduBuffer c ++ [formattedOf l]) as [|? [|? [|? ?]]]. }
  destruct (Classifier.inExperience c).
  { now destruct (isBold _ && _ && _). }
  destruct (Classifier.inProjects c); cbn [andb negb].
  - branches ltac:(discriminate).
  - destruct (existsb _ skillCategories); [auto |].
    branches ltac:(discriminate).
Qed.

(** X14. A line is handled as a skill line outside every section only,
    and when its raw text (the token texts joined by spaces) holds a
    category label; what is printed is the highlight of its formatted
    text, so a label that the spacing of the formatter broke up is
    printed without any restyling. *)
Theorem skill_line_output (lines : list Line) (k : nat) (l : Line) :
  lines !! k = Some l ->
  Run.roles (classifyLines lines) !! k = Some SkillLine ->
  currentSection (Run.vars (runTo lines k)) = NoSection
  /\ (exists key, In key skillCategories /\ hasSubstring (rawLineOf l) key)
  /\ Run.log (runTo lines (S k)) =
       Run.log (runTo lines k) ++ [highlightSkillKey (formattedOf l)]
  /\ (firstCategory (formattedOf l) = None ->
      Run.log (runTo lines (S k)) = Run.log (runTo lines k) ++ [formattedOf l]).
Proof.
  intros Hl Hrole. apply run_roles_final in Hrole as (l0 & Hl0 & Hrole).
  assert (l0 = l) by congruence. subst l0. symmetry in Hrole.
  pose proof (outcome_roles lines k (Run.vars (runTo lines k)) l) as Hin.
  rewrite Hrole in Hin.
  apply outcome_skill_inv in Hrole as (_ & Hout & Hkey).
  assert (Hlog : Run.log (runTo lines (S k)) =
                 Run.log (runTo lines k) ++ [highlightSkillKey (formattedOf l)])
    by now rewrite (run_log_S _ _ _ Hl), Hout.
  split; [| split; [| split]].
  - destruct (currentSection (Run.vars (runTo lines k))); simpl in Hin;
      try reflexivity; exfalso; intuition discriminate.
  - apply existsb_exists in Hkey as (key & Hkin & Hinc).
    exists key. split; [exact Hkin | now apply includes_spec].
  - exact Hlog.
  - intros Hnone. rewrite Hlog. do 2 f_equal.
    unfold highlightSkillKey. rewrite highlightSkillKeyIn_find.
    fold (firstCategory (formattedOf l)). now rewrite Hnone.
Qed.

End SkillLines.

(** ** More concrete runs *)

(** Two tokens met right to left: the ascending arrangement is the one
    the sort gives. *)
Lemma stable_sort_two_tokens :
  [Token.mk "Hello" "Hello" 10 700 "Helvetica";
   Token.mk "World" "World" 50 700 "Helvetica"]
  = sortByX [Token.mk "World" "World" 50 700 "Helvetica";
             Token.mk "Hello" "Hello" 10 700 "Helvetica"].
Proof.
  apply stable_sort_is_unique.
  - repeat constructor; unfold leX; simpl; lia.
  - intros v. unfold atX. cbn [List.filter Token.x].
    destruct (Z.eqb_spec 10 v), (Z.eqb_spec 50 v); try reflexivity. lia.
Defined.

Lemma formatting_two_orders :
  formatLineWithSpacing (chalk := plainChalk)
    [Token.mk "World" "World" 50 700 "Helvetica";
     Token.mk "Hello" "Hello" 10 700 "Helvetica"]
  = formatLineWithSpacing (chalk := plainChalk)
      [Token.mk "Hello" "Hello" 10 700 "Helvetica";
       Token.mk "World" "World" 50 700 "Helvetica"].
Proof.
  apply (formatting_ignores_discovery_order (chalk := plainChalk)).
  - apply perm_swap.
  - simpl. apply NoDup_cons. split; [| apply NoDup_singleton].
    intros H. apply list_elem_of_singleton in H. discriminate H.
Defined.

Lemma linked_then_plain_glued :
  formattedOf (chalk := plainChalk) linkedThenPlain
  = makeHyperlink "docs" "https://example.org" +:+ "here".
Proof.
  unfold linkedThenPlain.
  rewrite (linked_token_swallows_separator (chalk := plainChalk) _ _
             "docs" "https://example.org").
  - reflexivity.
  - reflexivity.
  - simpl. lia.
  - simpl. lia.
  - vm_compute. intros H. discriminate H.
  - vm_compute. reflexivity.
Defined.

Lemma tech_stack_in_projects :
  In TechStack
    (Skipped :: SectionHeader
     :: sectionRoles
          (currentSection
             (Run.vars (runTo (chalk := plainChalk)
                          (pageLines (chalk := plainChalk) twoTitles) 2)))).
Proof.
  apply (roles_follow_section (chalk := plainChalk)
           (pageLines (chalk := plainChalk) twoTitles) 2 TechStack).
  reflexivity.
Defined.

Lemma third_title_styled :
  Run.roles (classifyLines (chalk := plainChalk)
               (pageLines (chalk := plainChalk) threeTitles)) !! 3%nat
  = Some ProjectTitle.
Proof.
  apply (project_title_iff (chalk := plainChalk)
           (pageLines (chalk := plainChalk) threeTitles) 3
           [makeToken (chalk := plainChalk) [] (fragment "GAMMA-3" 10 640 "Helvetica")]).
  - reflexivity.
  - split; [reflexivity |]. split; [reflexivity |]. split; [reflexivity |].
    right. intros H. vm_compute in H. discriminate H.
Defined.

Lemma second_tool_after_two_blank_lines :
  Run.log (runTo (chalk := plainChalk) (pageLines (chalk := plainChalk) titleAfterText) 3)
  = Run.log (runTo (chalk := plainChalk) (pageLines (chalk := plainChalk) titleAfterText) 1)
    ++ ["A tool that does 3 things."; EmptyString; EmptyString; "SECOND TOOL"].
Proof.
  pose proof (title_after_text_gets_two_blank_lines (chalk := plainChalk)
                (pageLines (chalk := plainChalk) titleAfterText) 1
                [makeToken (chalk := plainChalk) []
                   (fragment "A tool that does 3 things." 10 680 "Helvetica")]
                [makeToken (chalk := plainChalk) []
                   (fragment "SECOND TOOL" 10 660 "Helvetica")]) as H.
  destruct H as [_ Hlog];
    [reflexivity | reflexivity | reflexivity | reflexivity | reflexivity
    | reflexivity | exact Hlog].
Defined.

Lemma tools_line_highlighted :
  Run.log (runTo (chalk := ansiChalk) (pageLines (chalk := ansiChalk) skillsPage) 2)
  = Run.log (runTo (chalk := ansiChalk) (pageLines (chalk := ansiChalk) skillsPage) 1)
    ++ [highlightSkillKey (chalk := ansiChalk)
          (formattedOf (chalk := ansiChalk)
             (map (makeToken (chalk := ansiChalk) [])
                [fragment "Tools:" 10 680 "Helvetica-Bold";
                 fragment "Git, Docker" 50 680 "Helvetica"]))].
Proof.
  pose proof (skill_line_output (chalk := ansiChalk)
                (pageLines (chalk := ansiChalk) skillsPage) 1
                (map (makeToken (chalk := ansiChalk) [])
                   [fragment "Tools:" 10 680 "Helvetica-Bold";
                    fragment "Git, Docker" 50 680 "Helvetica"])) as H.
  destruct H as (_ & _ & Hlog & _); [reflexivity | reflexivity | exact Hlog].
Defined.


(** At 2^53 the sum of line 70 is rounded: the width of "a" moves [lastX]
    to 2^53 + 4, not to 2^53 + 5, so the gap to "b" is 6 and a space is
    put. *)
Lemma formatter_rounds_at_two_to_53 :
  formattedOf (chalk := plainChalk) farRight = "a b"
  /\ JsNumber.add (2 ^ 53) (JsNumber.mul 1 5) = 2 ^ 53 + 4.
Proof. split; vm_compute; reflexivity. Qed.
